(** * AriaDriver: the element-resolution and focus-verification engine

    A shallow embedding of [lib/index.js].  The class [AriaDriver] drives a
    page through a remote WebDriver session; every method is a sequence of
    awaited remote commands interleaved with warnings emitted on the
    instance's event channel.  The embedding keeps

    - the JavaScript values that flow through the constructor ([Value],
      objects as finite maps from property names to values),
    - the remote end as an interface ([WebDriver]) whose commands answer,
    - each method as a computation over the instance and a trace that
      records, in order, every command sent and every event emitted. *)

From Stdlib Require Import ZArith Ascii String.
From stdpp Require Import base option list strings gmap.

Local Open Scope Z_scope.
Local Open Scope string_scope.
Local Open Scope list_scope.

(** ** JavaScript values *)

(** Numbers are kept at their integral values: option values such as the
    patience are millisecond counts.  Strings are the UTF-8 bytes of their
    text. *)
Inductive Value :=
  | VUndefined
  | VNull
  | VBoolean (b : bool)
  | VNumber (n : Z)
  | VString (s : string).

#[global] Instance Value_eq_dec : EqDecision Value.
Proof. solve_decision. Defined.

(** An object used as a bag of options: own enumerable properties. *)
Abbreviation Object := (gmap string Value).

(** [o.k]: reading a property that is not there gives [undefined]. *)
Definition prop (o : Object) (k : string) : Value := default VUndefined (o !! k).

(** [Object.assign(target, ...sources)]: sources are copied left to right,
    later ones overwrite; a source that is [undefined] or [null] ([None])
    is skipped. *)
Definition Object_assign (target : Object) (sources : list (option Object)) : Object :=
  foldl (fun acc src => match src with Some o => o ∪ acc | None => acc end)
        target sources.

(** ** [parseInt(string, 10)] *)

Definition byte_is (c : ascii) (n : N) : bool := N.eqb (N_of_ascii c) n.

(** WhiteSpace and LineTerminator code points below U+0080. *)
Definition is_space1 (c : ascii) : bool :=
  let n := N_of_ascii c in
  (N.leb 9 n && N.leb n 13) || N.eqb n 32.

(** U+00A0, encoded on two bytes. *)
Definition is_space2 (c1 c2 : ascii) : bool :=
  byte_is c1 194 && byte_is c2 160.

(** U+1680, U+2000..U+200A, U+2028, U+2029, U+202F, U+205F, U+3000 and
    U+FEFF, encoded on three bytes. *)
Definition is_space3 (c1 c2 c3 : ascii) : bool :=
  let n3 := N_of_ascii c3 in
  (byte_is c1 225 && byte_is c2 154 && byte_is c3 128)
  || (byte_is c1 226 && byte_is c2 128 &&
      ((N.leb 128 n3 && N.leb n3 138) || N.eqb n3 168 || N.eqb n3 169
       || N.eqb n3 175))
  || (byte_is c1 226 && byte_is c2 129 && byte_is c3 159)
  || (byte_is c1 227 && byte_is c2 128 && byte_is c3 128)
  || (byte_is c1 239 && byte_is c2 187 && byte_is c3 191).

(** Leading white space is skipped. *)
Fixpoint trimStart (s : string) : string :=
  match s with
  | EmptyString => s
  | String c1 s1 =>
    if is_space1 c1 then trimStart s1
    else match s1 with
         | EmptyString => s
         | String c2 s2 =>
           if is_space2 c1 c2 then trimStart s2
           else match s2 with
                | EmptyString => s
                | String c3 s3 =>
                  if is_space3 c1 c2 c3 then trimStart s3 else s
                end
         end
  end.

Definition digit (c : ascii) : option Z :=
  let n := N_of_ascii c in
  if (N.leb 48 n && N.leb n 57)%bool then Some (Z.of_N n - 48) else None.

(** The longest prefix of decimal digits; [acc] is [None] until a digit
    has been read. *)
Fixpoint digits (s : string) (acc : option Z) : option Z :=
  match s with
  | EmptyString => acc
  | String c r =>
    match digit c with
    | Some d => digits r (Some (10 * default 0 acc + d))
    | None => acc
    end
  end.

(** [parseInt(s, 10)].  [None] is [NaN].  With an explicit radix of 10 no
    [0x] prefix is recognised.  The result carries the exact integer read:
    its sign, which is all the caller looks at, is that of the number
    JavaScript returns. *)
Definition parseInt (s : string) : option Z :=
  let s := trimStart s in
  let '(sign, s) := match s with
                    | String "-" r => (-1, r)
                    | String "+" r => (1, r)
                    | _ => (1, s)
                    end in
  Z.mul sign <$> digits s None.

(** [x > 0] on the result of [parseInt]: false on [NaN]. *)
Definition gt0 (x : option Z) : bool :=
  match x with Some n => (0 <? n)%Z | None => false end.

(** String conversion of an attribute value; an absent attribute is
    [null]. *)
Definition ToString (a : option string) : string := default "null" a.

(** ** Errors and warnings *)

(** An [AriaDriverError] as the call sites build it:
    [new AriaDriverError(code, args, message, link)].  Arguments left out
    are [undefined], [args] may also be [null]: both read [None]. *)
Record AriaDriverError := mkError {
  code : string;
  args : option (list string);
  message : option string;
  link : option string
}.

#[global] Instance AriaDriverError_eq_dec : EqDecision AriaDriverError.
Proof. solve_decision. Defined.

Definition ELEMENT_NOT_FOUND := "ARIADRIVER-ELEMENT-NOT-FOUND".
Definition AMBIGUOUS_REFERENCE := "ARIADRIVER-AMBIGUOUS-REFERENCE".
Definition POOR_SEMANTICS := "ARIADRIVER-POOR-SEMANTICS".
Definition ELEMENT_UNFOCUSABLE := "ARIADRIVER-ELEMENT-UNFOCUSABLE".

(** What a method can throw: one of the driver's errors, or the
    [TypeError] of a property read on [undefined].  A command the backend
    rejects is outside this model. *)
Inductive Thrown :=
  | Aria (e : AriaDriverError)
  | TypeError.

Inductive Result (A : Type) :=
  | Ok (a : A)
  | Throw (t : Thrown).
Arguments Ok {A} a.
Arguments Throw {A} t.

(** ** The remote end *)

Inductive By := By_css (selector : string).

#[global] Instance By_eq_dec : EqDecision By.
Proof. solve_decision. Defined.

Module Key.
Inductive t := ENTER.
#[global] Instance eq_dec : EqDecision t.
Proof. solve_decision. Defined.
End Key.

(** The capabilities of the automation backend that the class calls.  A
    [Page] is the state of the remote document, an [Elem] a handle to one
    of its nodes.  Every command answers: a backend that drops the
    session is outside this model. *)
Class WebDriver (Page Elem : Type) := {
  Elem_eq_dec :: EqDecision Elem;
  (** a new session: its identifier and its first document *)
  createSession : string -> Value -> string * Page;
  navigate : Page -> string -> Page;
  (** matches are listed in document order *)
  findElements : Page -> By -> list Elem;
  getAttribute : Page -> Elem -> string -> option string;
  (** [element.focus()] run in the page *)
  focus : Page -> Elem -> Page;
  (** [document.activeElement] *)
  activeElement : Page -> option Elem;
  sendKeys : Page -> Elem -> Key.t -> Page;
  (** the document once the given number of milliseconds has passed
      with no command sent *)
  elapse : Page -> Z -> Page
}.

(** The script [_use] sends with [executeScript]. *)
Inductive Script := FocusAndCheck.

Section Driver.
Context {Page Elem : Type} `{WD : WebDriver Page Elem}.

Inductive Command :=
  | CmdGetSession
  | CmdGet (url : string)
  | CmdFindElements (by_ : By)
  | CmdGetAttribute (e : Elem) (name : string)
  | CmdExecuteScript (s : Script) (arg : Elem)
  | CmdSendKeys (e : Elem) (k : Key.t)
  | CmdQuit.

(** One entry of the trace: a command sent to the backend, or an event
    emitted on the instance. *)
Inductive Event :=
  | Sent (c : Command)
  | Emitted (name : string) (payload : AriaDriverError).

#[global] Instance Script_eq_dec : EqDecision Script.
Proof. solve_decision. Defined.
#[global] Instance Command_eq_dec : EqDecision Command.
Proof. solve_decision. Defined.
#[global] Instance Event_eq_dec : EqDecision Event.
Proof. solve_decision. Defined.

(** What [new Builder().forBrowser(b).usingServer(u).build()] gives. *)
Record Session := mkSession {
  browser : string;
  server : Value;
  sessionId : string;
  page : Page
}.

Record Builder := mkBuilder {
  b_browser : string;
  b_server : Value
}.

Definition new_Builder : Builder := mkBuilder EmptyString VUndefined.
Definition forBrowser (name : string) (b : Builder) : Builder :=
  mkBuilder name (b_server b).
Definition usingServer (url : Value) (b : Builder) : Builder :=
  mkBuilder (b_browser b) url.
Definition build (b : Builder) : Session :=
  let '(id, p) := createSession (b_browser b) (b_server b) in
  mkSession (b_browser b) (b_server b) id p.

(** The fields of an instance. *)
Record AriaDriver := mkAriaDriver {
  _patience : Value;
  _driver : Session
}.

(** An instance together with everything it has sent and emitted so
    far, oldest first. *)
Record World := mkWorld {
  self : AriaDriver;
  trace : list Event
}.

Definition defaults : Object :=
  <["url" := VUndefined]> (<["patience" := VNumber 1000]> ∅).

(** [constructor(options)]; [None] is a call without argument. *)
Definition constructor (options : option Object) : World :=
  let options := Object_assign ∅ [Some defaults; options] in
  let this_patience := prop options "patience" in
  let this_driver :=
    build (usingServer (prop options "url") (forBrowser "firefox" new_Builder)) in
  mkWorld (mkAriaDriver this_patience this_driver) [].

(** [get patience()] *)
Definition patience (w : World) : Value := _patience (self w).

(** ** Methods as computations *)

Definition M (A : Type) : Type := World -> Result A * World.

Definition ret {A} (a : A) : M A := fun w => (Ok a, w).
Definition throw {A} (t : Thrown) : M A := fun w => (Throw t, w).
Definition bind {A B} (m : M A) (k : A -> M B) : M B :=
  fun w => match m w with
           | (Ok a, w') => k a w'
           | (Throw t, w') => (Throw t, w')
           end.

Definition log (e : Event) : M unit :=
  fun w => (Ok tt, mkWorld (self w) (trace w ++ [e])).

Definition currentPage : M Page := fun w => (Ok (page (_driver (self w))), w).

Definition setPage (p : Page) : M unit :=
  fun w =>
    let d := _driver (self w) in
    (Ok tt,
     mkWorld (mkAriaDriver (_patience (self w))
                (mkSession (browser d) (server d) (sessionId d) p))
             (trace w)).
End Driver.

Notation "'let*' x := m 'in' k" := (bind m (fun x => k))
  (at level 10, x name, m at level 100, k at level 200).
Notation "m ;; k" := (bind m (fun _ => k))
  (at level 100, k at level 200, right associativity).

Section Methods.
Context {Page Elem : Type} `{WD : WebDriver Page Elem}.

Abbreviation M' := (@M Page Elem).

(** *** Calls on [this._driver] and on element handles *)

Definition driver_getSession : M' string :=
  log (Sent CmdGetSession) ;;
  fun w => (Ok (sessionId (_driver (self w))), w).

Definition driver_get (url : string) : M' unit :=
  log (Sent (CmdGet url)) ;;
  let* p := currentPage in
  setPage (navigate p url).

Definition driver_findElements (by_ : By) : M' (list Elem) :=
  log (Sent (CmdFindElements by_)) ;;
  let* p := currentPage in
  ret (findElements p by_).

Definition elem_getAttribute (e : Elem) (name : string) : M' (option string) :=
  log (Sent (CmdGetAttribute e name)) ;;
  let* p := currentPage in
  ret (getAttribute p e name).

(** [function() { arguments[0].focus();
                  return document.activeElement === arguments[0]; }] *)
Definition focusAndCheck (p : Page) (arg : Elem) : Page * bool :=
  let p' := focus p arg in
  (p', bool_decide (activeElement p' = Some arg)).

Definition driver_executeScript (s : Script) (arg : Elem) : M' bool :=
  log (Sent (CmdExecuteScript s arg)) ;;
  let* p := currentPage in
  match s with
  | FocusAndCheck =>
    let '(p', r) := focusAndCheck p arg in
    setPage p' ;; ret r
  end.

Definition elem_sendKeys (e : Elem) (k : Key.t) : M' unit :=
  log (Sent (CmdSendKeys e k)) ;;
  let* p := currentPage in
  setPage (sendKeys p e k).

(** The command is sent; the session is over after it, and what a later
    call would meet is outside this model. *)
Definition driver_quit : M' unit := log (Sent CmdQuit).

(** [this.emit(name, payload)] *)
Definition emit (name : string) (payload : AriaDriverError) : M' unit :=
  log (Emitted name payload).

(** [a[i]] on an array; reading a property of the [undefined] that an
    index out of range gives is a [TypeError]. *)
Definition index (a : list Elem) (i : nat) : M' Elem :=
  match a !! i with
  | Some e => ret e
  | None => throw TypeError
  end.

(** *** The methods of the class *)

Definition getSessionId : M' string := driver_getSession.

Definition get (url : string) : M' unit := driver_get url.

Definition count (selector : string) : M' nat :=
  let* els := driver_findElements (By_css selector) in
  ret (length els).

Definition poorSemantics (tabIndex : option string) : AriaDriverError :=
  mkError POOR_SEMANTICS None
    (Some ("The tabindex property is set to " ++ ToString tabIndex
           ++ ", but it should not exceed 0.")%string)
    (Some "https://www.w3.org/TR/wai-aria-practices-1.1/#kbd_general_between").

Definition _findOne (selector : string) : M' Elem :=
  let* targets := driver_findElements (By_css selector) in
  (if (length targets =? 0)%nat
   then throw (Aria (mkError ELEMENT_NOT_FOUND (Some [selector]) None None))
   else ret tt) ;;
  (if (1 <? length targets)%nat
   then emit "warning" (mkError AMBIGUOUS_REFERENCE (Some [selector]) None None)
   else ret tt) ;;
  let* target0 := index targets 0 in
  let* tabIndex := elem_getAttribute target0 "tabindex" in
  (if gt0 (parseInt (ToString tabIndex))
   then emit "warning" (poorSemantics tabIndex)
   else ret tt) ;;
  index targets 0.

Definition _use (selector : string) (target : Elem) : M' unit :=
  let* hidden := elem_getAttribute target "aria-hidden" in
  (if bool_decide (hidden = Some "true")
   then throw (Aria (mkError ELEMENT_UNFOCUSABLE (Some [selector]) None None))
   else ret tt) ;;
  let* accepted := driver_executeScript FocusAndCheck target in
  (if negb accepted
   then throw (Aria (mkError ELEMENT_UNFOCUSABLE (Some [selector]) None None))
   else ret tt) ;;
  elem_sendKeys target Key.ENTER.

Definition use (selector : string) : M' unit :=
  let* target := _findOne selector in
  _use selector target.

Definition quit : M' unit := driver_quit.
End Methods.

(** ** Widget operations

    [lib/widgets/popup.js] is mixed into the prototype but is not part of
    the sources at hand; its tests are.  The definitions of this section
    follow the design document. *)

(** The codes the popup tests expect. *)
Definition INVALID_MARKUP := "ARIADRIVER-INVALID-MARKUP".
Definition TIMEOUT := "ARIADRIVER-TIMEOUT".

(** A token between double quotes, as in an attribute selector. *)
Definition quoted (s : string) : string :=
  (String (ascii_of_nat 34) s ++ String (ascii_of_nat 34) EmptyString)%string.

(** Modelled from the spec: the outcome of the Patience Poller, absent
    from the sources. *)
Inductive PollOutcome := PollSuccess | PollTimeout.

(** Modelled from the spec: the three ways a trigger's markup can be
    refused, absent from the sources. *)
Inductive MarkupFault := AttributeAbsent | NegativeState | UnrecognizedToken.

(** Modelled from the spec: the reason argument of the error, absent from
    the sources; it tells the three refusals apart. *)
Definition faultText (f : MarkupFault) : string :=
  match f with
  | AttributeAbsent => "attribute absent"
  | NegativeState => "negative state"
  | UnrecognizedToken => "unrecognized token"
  end.

(** Modelled from the spec: the Widget Descriptor, absent from the
    sources.  A widget kind declares a required attribute, the tokens it
    accepts, the token that declares the negative state, and the selector
    of the containers whose appearance its success predicate counts. *)
Record WidgetDescriptor := mkWidget {
  required : string;
  accepted : list string;
  negative : string;
  container : string
}.

(** Modelled from the spec: the popup kind, absent from the sources.  The
    accepted tokens and the container selector are those the popup tests
    exercise; the negative state is the literal [false]. *)
Definition popup : WidgetDescriptor :=
  mkWidget "aria-haspopup"
           ["true"; "menu"; "listbox"; "tree"; "grid"; "dialog"]
           "false"
           ("[role]:not([aria-hidden=" ++ quoted "true" ++ "])")%string.

(** Modelled from the spec: the markup rule of the Widget Markup
    Validator, absent from the sources.  It looks at the attribute value
    only. *)
Definition markupRule (d : WidgetDescriptor) (v : option string) : option MarkupFault :=
  match v with
  | None => Some AttributeAbsent
  | Some tok =>
    if bool_decide (tok = negative d) then Some NegativeState
    else if bool_decide (tok ∈ accepted d) then None
    else Some UnrecognizedToken
  end.

Section Widgets.
Context {Page Elem : Type} `{WD : WebDriver Page Elem}.

(** The sampling interval of the poller, in milliseconds. *)
Variable samplingInterval : Z.

Abbreviation M' := (@M Page Elem).

(** Modelled from the spec: the wait between two samples of the poller,
    absent from the sources. *)
Definition sleep (ms : Z) : M' unit :=
  let* p := currentPage in
  setPage (elapse p ms).

(** Modelled from the spec: the Patience Poller, absent from the
    sources.  The predicate is sampled; a true sample returns at once;
    a false one gives up when the elapsed time exceeds the patience and
    otherwise waits one sampling interval.  [samples] bounds the number
    of samples. *)
Fixpoint pollFrom (samples : nat) (predicate : M' bool) (elapsed patienceMs : Z)
  : M' PollOutcome :=
  match samples with
  | O => ret PollTimeout
  | S samples' =>
    let* holds := predicate in
    if (holds : bool) then ret PollSuccess
    else if (patienceMs <? elapsed)%Z then ret PollTimeout
    else sleep samplingInterval ;;
         pollFrom samples' predicate (elapsed + samplingInterval) patienceMs
  end.

(** Modelled from the spec: [poll(predicate, patienceMs)], absent from
    the sources, with room for one sample per interval of the patience
    and two more. *)
Definition poll (predicate : M' bool) (patienceMs : Z) : M' PollOutcome :=
  pollFrom (Z.to_nat (patienceMs / samplingInterval) + 2) predicate 0 patienceMs.

(** Modelled from the spec: the Widget Markup Validator, absent from
    the sources. *)
Definition validate (d : WidgetDescriptor) (selector : string) (target : Elem)
  : M' unit :=
  let* v := elem_getAttribute target (required d) in
  match markupRule d v with
  | Some fault =>
    throw (Aria (mkError INVALID_MARKUP (Some [selector; faultText fault]) None None))
  | None => ret tt
  end.

(** Modelled from the spec: the success predicate of a kind, absent
    from the sources: exactly one more container than before the
    activation. *)
Definition successPredicate (d : WidgetDescriptor) (before : nat) : M' bool :=
  let* now := count (container d) in
  ret (now =? before + 1)%nat.

(** Modelled from the spec: the patience as a duration in milliseconds,
    absent from the sources; a value that is not a number waits for
    nothing. *)
Definition patienceMs (v : Value) : Z :=
  match v with VNumber n => n | _ => 0 end.

(** Modelled from the spec: the Widget Interaction Protocol, absent from
    the sources.  The trigger is resolved once; the resolved element is
    validated, then handed to the Focus Transfer Verifier; the poller
    runs last. *)
Definition operate (d : WidgetDescriptor) (selector : string) : M' unit :=
  let* target := _findOne selector in
  validate d selector target ;;
  let* before := count (container d) in
  _use selector target ;;
  let* wait := (fun w => (Ok (patienceMs (patience w)), w)) in
  let* outcome := poll (successPredicate d before) wait in
  match outcome with
  | PollSuccess => ret tt
  | PollTimeout => throw (Aria (mkError TIMEOUT (Some [selector]) None None))
  end.

(** Modelled from the spec: [openPopup], absent from the sources. *)
Definition openPopup (selector : string) : M' unit := operate popup selector.

(** Modelled from the spec: the Widget Interaction Protocol with the
    duration of its bounded wait given from outside instead of read from
    the instance; absent from the sources. *)
Definition operateWithin (wait : Z) (d : WidgetDescriptor) (selector : string)
  : M' unit :=
  let* target := _findOne selector in
  validate d selector target ;;
  let* before := count (container d) in
  _use selector target ;;
  let* outcome := poll (successPredicate d before) wait in
  match outcome with
  | PollSuccess => ret tt
  | PollTimeout => throw (Aria (mkError TIMEOUT (Some [selector]) None None))
  end.
End Widgets.

(** ** A document to run the methods on

    A small in-memory backend: a document is a list of nodes in document
    order, a handle is a position in that list.  A selector is matched by
    the nodes that list it. *)
Module Fixture.
Record Node := mkNode {
  matchedBy : list string;
  attributes : list (string * string);
  focusable : bool;
  shown : bool;
  (** pressing Enter on the node shows another one after a delay *)
  opens : option (Z * nat)
}.

Record Doc := mkDoc {
  nodes : list Node;
  active : option nat;
  (** nodes waiting to be shown: milliseconds left, position *)
  timers : list (Z * nat)
}.

Definition lookupAttr (name : string) (l : list (string * string)) : option string :=
  snd <$> List.find (fun kv => bool_decide (fst kv = name)) l.

Fixpoint positions (s : string) (i : nat) (l : list Node) : list nat :=
  match l with
  | [] => []
  | n :: l' =>
    if (shown n && bool_decide (s ∈ matchedBy n))%bool
    then i :: positions s (S i) l'
    else positions s (S i) l'
  end.

Definition show (n : Node) : Node :=
  mkNode (matchedBy n) (attributes n) (focusable n) true (opens n).

Definition showAt (i : nat) (l : list Node) : list Node :=
  match l !! i with
  | Some n => <[i := show n]> l
  | None => l
  end.

Definition doc_focus (d : Doc) (e : nat) : Doc :=
  match nodes d !! e with
  | Some n => if (focusable n && shown n)%bool
              then mkDoc (nodes d) (Some e) (timers d) else d
  | None => d
  end.

Definition doc_sendKeys (d : Doc) (e : nat) (k : Key.t) : Doc :=
  match nodes d !! e with
  | Some n =>
    match opens n with
    | Some t => mkDoc (nodes d) (active d) (timers d ++ [t])
    | None => d
    end
  | None => d
  end.

Definition doc_elapse (d : Doc) (ms : Z) : Doc :=
  let due := List.filter (fun t => (fst t <=? ms)%Z) (timers d) in
  let later := List.filter (fun t => negb (fst t <=? ms)%Z) (timers d) in
  mkDoc (foldr (fun t l => showAt (snd t) l) (nodes d) due)
        (active d)
        (List.map (fun t => (fst t - ms, snd t)) later).

(** The documents served, by address. *)
Definition Site := list (string * Doc).

Definition blank : Doc := mkDoc [] None [].

Definition backend (site : Site) : WebDriver Doc nat := {|
  createSession _ _ := ("session-1", blank);
  navigate _ url :=
    default blank (snd <$> List.find (fun kv => bool_decide (fst kv = url)) site);
  findElements d by_ := match by_ with By_css s => positions s 0 (nodes d) end;
  getAttribute d e name := n ← nodes d !! e; lookupAttr name (attributes n);
  focus := doc_focus;
  activeElement := active;
  sendKeys := doc_sendKeys;
  elapse := doc_elapse
|}.

Definition plain (sel : string) (attrs : list (string * string)) (f : bool) : Node :=
  mkNode [sel] attrs f true None.

(** Two buttons share a class; a third control has a positive tab
    order; one is hidden from assistive technology; one cannot take
    focus; one has a positive tab order and is hidden as well. *)
Definition widgets : Doc :=
  mkDoc [ plain ".twin" [] true;
          plain ".twin" [("tabindex", "0")] true;
          plain "#first" [("tabindex", "1")] true;
          plain "#hidden" [("aria-hidden", "true")] true;
          plain "#inert" [] false;
          plain "#both" [("tabindex", "2"); ("aria-hidden", "true")] true;
          plain "#ok" [("tabindex", "-1"); ("aria-hidden", "false")] true;
          plain "#no-popup" [] true;
          plain "#false-popup" [("aria-haspopup", "false")] true;
          plain "#odd-popup" [("aria-haspopup", "tooltip")] true;
          mkNode ["#menu-button"] [("aria-haspopup", "menu")] true true
                 (Some (120, 11%nat));
          mkNode ["#menu"; container popup] [("role", "menu")] true false None ]
        None [].

Definition site : Site := [("/widgets.html", widgets)].

#[global] Instance Inst : WebDriver Doc nat := backend site.

(** A fresh instance that has loaded the document. *)
Definition loaded (options : option Object) : @World Doc nat :=
  snd (get (WD := Inst) "/widgets.html" (constructor (WD := Inst) options)).
End Fixture.


(** ** Reading a trace *)

Section Observations.
Context {Page Elem : Type} `{WD : WebDriver Page Elem}.

Abbreviation World' := (@World Page Elem).
Abbreviation Event' := (@Event Elem).

(** The document an instance is looking at. *)
Definition pageOf (w : World') : Page := page (_driver (self w)).

(** The same instance after more entries were recorded. *)
Definition extend (w : World') (evs : list Event') : World' :=
  mkWorld (self w) (trace w ++ evs).

(** The same instance looking at another document. *)
Definition atPage (w : World') (p : Page) : World' :=
  let d := _driver (self w) in
  mkWorld (mkAriaDriver (_patience (self w))
             (mkSession (browser d) (server d) (sessionId d) p))
          (trace w).

(** The payloads delivered to the listeners of [warning]. *)
Definition warnings (evs : list Event') : list AriaDriverError :=
  omap (fun e => match e with
                 | Emitted name p => if bool_decide (name = "warning") then Some p else None
                 | Sent _ => None
                 end) evs.

Definition commands (evs : list Event') : list (@Command Elem) :=
  omap (fun e => match e with Sent c => Some c | Emitted _ _ => None end) evs.

(** How many warnings carry a given code. *)
Definition warned (c : string) (evs : list Event') : nat :=
  length (List.filter (fun e => bool_decide (code e = c)) (warnings evs)).

Definition isFocus (c : @Command Elem) : bool :=
  match c with CmdExecuteScript FocusAndCheck _ => true | _ => false end.

Definition isKeys (c : @Command Elem) : bool :=
  match c with CmdSendKeys _ _ => true | _ => false end.

(** No focus script and no key press among the commands. *)
Definition untouched (evs : list Event') : Prop :=
  forallb (fun c => negb (isFocus c || isKeys c)) (commands evs) = true.

Definition notFound (selector : string) : Thrown :=
  Aria (mkError ELEMENT_NOT_FOUND (Some [selector]) None None).

Definition unfocusable (selector : string) : Thrown :=
  Aria (mkError ELEMENT_UNFOCUSABLE (Some [selector]) None None).

Definition ambiguous (selector : string) : Event' :=
  Emitted "warning" (mkError AMBIGUOUS_REFERENCE (Some [selector]) None None).

(** The tab order of an element is positive. *)
Definition positiveTabindex (p : Page) (e : Elem) : bool :=
  gt0 (parseInt (ToString (getAttribute p e "tabindex"))).

(** The element is hidden from assistive technology. *)
Definition ariaHidden (p : Page) (e : Elem) : bool :=
  bool_decide (getAttribute p e "aria-hidden" = Some "true").

(** The page reports the element as active once it was asked to focus
    it. *)
Definition takesFocus (p : Page) (e : Elem) : bool :=
  bool_decide (activeElement (focus p e) = Some e).

(** What the resolution of a selector records once a first match
    [t0] out of [n] matches is known. *)
Definition resolution (selector : string) (p : Page) (t0 : Elem) (n : nat)
  : list Event' :=
  [Sent (CmdFindElements (By_css selector))]
  ++ (if (1 <? n)%nat then [ambiguous selector] else [])
  ++ [Sent (CmdGetAttribute t0 "tabindex")]
  ++ (if positiveTabindex p t0
      then [Emitted "warning" (poorSemantics (getAttribute p t0 "tabindex"))]
      else []).
End Observations.

(** ** The life of an instance *)

Section Lifetime.
Context {Page Elem : Type} `{WD : WebDriver Page Elem}.

(** A call of one of the methods of the class. *)
Inductive Call :=
  | CallGetSessionId
  | CallGet (url : string)
  | CallCount (selector : string)
  | CallFindOne (selector : string)
  | CallUse (selector : string)
  | CallUseOn (selector : string) (target : Elem)
  | CallQuit.

(** The instance after a call, whether it returned or threw. *)
Definition perform (c : Call) (w : @World Page Elem) : @World Page Elem :=
  match c with
  | CallGetSessionId => snd (getSessionId w)
  | CallGet url => snd (get url w)
  | CallCount selector => snd (count selector w)
  | CallFindOne selector => snd (_findOne selector w)
  | CallUse selector => snd (use selector w)
  | CallUseOn selector target => snd (_use selector target w)
  | CallQuit => snd (quit w)
  end.

(** The instance after a sequence of calls. *)
Definition lifetime (calls : list Call) (w : @World Page Elem) : @World Page Elem :=
  foldl (fun w c => perform c w) w calls.

(** A property of the options passed to the constructor, if they have
    it. *)
Definition supplied (options : option Object) (k : string) : option Value :=
  o ← options; o !! k.

(** The value is a number and is at least 0. *)
Definition nonNegative (v : Value) : Prop :=
  match v with VNumber n => 0 <= n | _ => False end.

(** A computation that leaves the patience of the instance alone,
    however it ends. *)
Definition preserving {A} (m : @M Page Elem A) : Prop :=
  forall w, patience (snd (m w)) = patience w.
End Lifetime.

(** ** Further readings of a trace and of an attribute value *)

Section Readings.
Context {Page Elem : Type} `{WD : WebDriver Page Elem}.

(** What was recorded between an earlier and a later state of an
    instance. *)
Definition since (w w' : @World Page Elem) : list (@Event Elem) :=
  drop (length (trace w)) (trace w').

(** The element a command is addressed to, when it is addressed to
    one. *)
Definition addressee (c : @Command Elem) : option Elem :=
  match c with
  | CmdGetAttribute e _ => Some e
  | CmdExecuteScript _ e => Some e
  | CmdSendKeys e _ => Some e
  | CmdGetSession | CmdGet _ | CmdFindElements _ | CmdQuit => None
  end.

(** The payload carries one of the two codes the class emits as
    warnings. *)
Definition advisory (e : AriaDriverError) : bool :=
  bool_decide (code e = AMBIGUOUS_REFERENCE)
  || bool_decide (code e = POOR_SEMANTICS).

(** The calls that only ask the page: they run no script, send no key
    and load nothing. *)
Definition asksOnly (c : @Call Elem) : bool :=
  match c with
  | CallGetSessionId | CallCount _ | CallFindOne _ => true
  | CallGet _ | CallUse _ | CallUseOn _ _ | CallQuit => false
  end.

(** The session of an instance, its document left aside. *)
Definition sessionOf (w : @World Page Elem) : string * Value * string :=
  let d := _driver (self w) in (browser d, server d, sessionId d).
End Readings.

(** A run of decimal digits at the head of the string that holds a digit
    other than 0. *)
Fixpoint nonzeroRun (s : string) : bool :=
  match s with
  | EmptyString => false
  | String c r =>
    match digit c with
    | Some d => (0 <? d)%Z || nonzeroRun r
    | None => false
    end
  end.

(** The shape of the attribute values that read as a number above 0:
    white space, then an optional plus sign, then digits not all 0. *)
Definition positiveLiteral (s : string) : bool :=
  match trimStart s with
  | String "-" _ => false
  | String "+" r => nonzeroRun r
  | s' => nonzeroRun s'
  end.

(** ** The methods, run *)

Ltac run :=
  unfold use, _use, _findOne, count, get, getSessionId, quit, index,
    driver_getSession, driver_get, driver_findElements, elem_getAttribute,
    driver_executeScript, elem_sendKeys, driver_quit, emit, focusAndCheck,
    currentPage, setPage, log, bind, ret, throw; simpl.

Section Runs.
Context {Page Elem : Type} `{WD : WebDriver Page Elem}.

Lemma findOne_run (selector : string) (w : @World Page Elem) :
  _findOne selector w =
  match findElements (pageOf w) (By_css selector) with
  | [] => (Throw (notFound selector),
           extend w [Sent (CmdFindElements (By_css selector))])
  | t0 :: rest =>
    (Ok t0, extend w (resolution selector (pageOf w) t0 (S (length rest))))
  end.
Proof.
  unfold resolution, positiveTabindex, extend, pageOf, notFound, ambiguous.
  run.
  destruct (findElements _ _) as [|t0 [|t1 rest]]; simpl; try reflexivity.
  - destruct (gt0 _); simpl; rewrite <- ?app_assoc; reflexivity.
  - destruct (gt0 _); simpl; rewrite <- ?app_assoc; reflexivity.
Qed.

Lemma use_run (selector : string) (target : Elem) (w : @World Page Elem) :
  _use selector target w =
  let p := pageOf w in
  let hid := Sent (CmdGetAttribute target "aria-hidden") in
  let foc := Sent (CmdExecuteScript FocusAndCheck target) in
  if ariaHidden p target
  then (Throw (unfocusable selector), extend w [hid])
  else if takesFocus p target
       then (Ok tt, extend (atPage w (sendKeys (focus p target) target Key.ENTER))
                      [hid; foc; Sent (CmdSendKeys target Key.ENTER)])
       else (Throw (unfocusable selector),
             extend (atPage w (focus p target)) [hid; foc]).
Proof.
  unfold ariaHidden, takesFocus, extend, atPage, pageOf, unfocusable.
  run.
  destruct (bool_decide (getAttribute _ _ _ = _)); simpl; [reflexivity|].
  destruct (bool_decide (activeElement _ = _)); simpl;
    rewrite <- ?app_assoc; reflexivity.
Qed.
End Runs.

(** ** [parseInt] on sample attribute values *)

Example parseInt_plain : parseInt "3" = Some 3.
Proof. reflexivity. Qed.

Example parseInt_prefix : parseInt "  +12px" = Some 12.
Proof. reflexivity. Qed.

Example parseInt_fraction : parseInt "1.5" = Some 1.
Proof. reflexivity. Qed.

Example parseInt_negative : parseInt "-1" = Some (-1).
Proof. reflexivity. Qed.

Example parseInt_word : parseInt "first" = None.
Proof. reflexivity. Qed.

Example parseInt_no_hex : parseInt "0x10" = Some 0.
Proof. reflexivity. Qed.

(** An absent attribute reads [null], which is not a number. *)
Lemma parseInt_absent : parseInt (ToString None) = None.
Proof. reflexivity. Qed.

Lemma gt0_spec (x : option Z) : gt0 x = true <-> exists n, x = Some n /\ 0 < n.
Proof.
  destruct x as [n|]; simpl.
  - rewrite Z.ltb_lt. split.
    + intros Hn. exists n. split; [reflexivity | exact Hn].
    + intros (m & Hm & Hpos). injection Hm as ->. exact Hpos.
  - split; [discriminate | intros (n & Hn & _); discriminate].
Qed.

Section Resolution.
Context {Page Elem : Type} `{WD : WebDriver Page Elem}.

Lemma positiveTabindex_spec (p : Page) (e : Elem) :
  positiveTabindex p e = true <->
  exists v n, getAttribute p e "tabindex" = Some v /\ parseInt v = Some n /\ 0 < n.
Proof.
  unfold positiveTabindex. rewrite gt0_spec.
  destruct (getAttribute p e "tabindex") as [v|]; simpl.
  - split.
    + intros (n & Hn & Hpos). exists v, n. auto.
    + intros (v' & n & Hv & Hn & Hpos). injection Hv as <-. exists n. auto.
  - split.
    + intros (n & Hn & _). discriminate.
    + intros (v & n & Hv & _). discriminate.
Qed.

Lemma warned_resolution_ambiguous (selector : string) (p : Page) (t0 : Elem) (n : nat) :
  warned AMBIGUOUS_REFERENCE (resolution selector p t0 n) =
  if (1 <? n)%nat then 1%nat else 0%nat.
Proof.
  unfold resolution.
  destruct (1 <? n)%nat; destruct (positiveTabindex p t0); reflexivity.
Qed.

Lemma warned_resolution_poor (selector : string) (p : Page) (t0 : Elem) (n : nat) :
  warned POOR_SEMANTICS (resolution selector p t0 n) =
  if positiveTabindex p t0 then 1%nat else 0%nat.
Proof.
  unfold resolution.
  destruct (1 <? n)%nat; destruct (positiveTabindex p t0); reflexivity.
Qed.

Lemma warnings_resolution (selector : string) (p : Page) (t0 : Elem) (n : nat) :
  warnings (resolution selector p t0 n) =
  ((if (1 <? n)%nat
    then [mkError AMBIGUOUS_REFERENCE (Some [selector]) None None] else [])
   ++ (if positiveTabindex p t0
       then [poorSemantics (getAttribute p t0 "tabindex")] else []))%list.
Proof.
  unfold resolution.
  destruct (1 <? n)%nat; destruct (positiveTabindex p t0); reflexivity.
Qed.

Lemma untouched_resolution (selector : string) (p : Page) (t0 : Elem) (n : nat) :
  untouched (resolution selector p t0 n).
Proof.
  unfold untouched, resolution.
  destruct (1 <? n)%nat; destruct (positiveTabindex p t0); reflexivity.
Qed.
End Resolution.

(** ** The patience of an instance *)

Create HintDb preserve.

Section Patience.
Context {Page Elem : Type} `{WD : WebDriver Page Elem}.

Lemma preserving_ret {A} (a : A) : preserving (ret (Page := Page) (Elem := Elem) a).
Proof. intros w. reflexivity. Qed.

Lemma preserving_throw {A} (t : Thrown) :
  preserving (throw (Page := Page) (Elem := Elem) (A := A) t).
Proof. intros w. reflexivity. Qed.

Lemma preserving_bind {A B} (m : @M Page Elem A) (k : A -> @M Page Elem B) :
  preserving m -> (forall a, preserving (k a)) -> preserving (bind m k).
Proof.
  intros Hm Hk w. unfold bind.
  specialize (Hm w). destruct (m w) as [[a|t] w']; simpl in *.
  - rewrite Hk. exact Hm.
  - exact Hm.
Qed.

Lemma preserving_log (e : @Event Elem) : preserving (log (Page := Page) e).
Proof. intros w. reflexivity. Qed.

Lemma preserving_currentPage : preserving (currentPage (Page := Page) (Elem := Elem)).
Proof. intros w. reflexivity. Qed.

Lemma preserving_setPage (p : Page) : preserving (setPage (Elem := Elem) p).
Proof. intros w. reflexivity. Qed.

Lemma preserving_if {A} (b : bool) (m1 m2 : @M Page Elem A) :
  preserving m1 -> preserving m2 -> preserving (if b then m1 else m2).
Proof. destruct b; auto. Qed.

Hint Resolve preserving_ret preserving_throw preserving_log
  preserving_currentPage preserving_setPage preserving_if : preserve.

Ltac preserve :=
  repeat (first [ apply preserving_bind; [|intros ?]
                | progress auto with preserve ]).

Lemma preserving_getSessionId : preserving (getSessionId (Page := Page) (Elem := Elem)).
Proof.
  unfold getSessionId, driver_getSession.
  apply preserving_bind; [auto with preserve|].
  intros _ w. reflexivity.
Qed.

Lemma preserving_get (url : string) : preserving (get (Elem := Elem) url).
Proof. unfold get, driver_get. preserve. Qed.

Lemma preserving_findElements (by_ : By) :
  preserving (driver_findElements (Page := Page) (Elem := Elem) by_).
Proof. unfold driver_findElements. preserve. Qed.

Lemma preserving_getAttribute (e : Elem) (name : string) :
  preserving (elem_getAttribute (Page := Page) e name).
Proof. unfold elem_getAttribute. preserve. Qed.

Lemma preserving_index (a : list Elem) (i : nat) :
  preserving (index (Page := Page) a i).
Proof. unfold index. destruct (a !! i); auto with preserve. Qed.

Hint Resolve preserving_findElements preserving_getAttribute
  preserving_index : preserve.

Lemma preserving_count (selector : string) :
  preserving (count (Page := Page) (Elem := Elem) selector).
Proof. unfold count. preserve. Qed.

Lemma preserving_findOne (selector : string) :
  preserving (_findOne (Page := Page) (Elem := Elem) selector).
Proof. unfold _findOne, emit. preserve. Qed.

Lemma preserving_useOn (selector : string) (target : Elem) :
  preserving (_use (Page := Page) selector target).
Proof.
  unfold _use, driver_executeScript, elem_sendKeys, focusAndCheck.
  preserve.
Qed.

Lemma preserving_use (selector : string) :
  preserving (use (Page := Page) (Elem := Elem) selector).
Proof.
  unfold use. apply preserving_bind.
  - apply preserving_findOne.
  - intros target. apply preserving_useOn.
Qed.

Lemma preserving_quit : preserving (quit (Page := Page) (Elem := Elem)).
Proof. unfold quit, driver_quit. auto with preserve. Qed.

(** The widget operations read the patience and leave it alone as
    well. *)
Lemma preserving_pollFrom (interval : Z) (samples : nat)
    (predicate : @M Page Elem bool) (elapsed wait : Z) :
  preserving predicate ->
  preserving (pollFrom interval samples predicate elapsed wait).
Proof.
  intros Hpred. revert elapsed.
  induction samples as [|samples IH]; intros elapsed; simpl.
  - auto with preserve.
  - apply preserving_bind; [exact Hpred|]. intros holds.
    destruct holds; [auto with preserve|].
    destruct (wait <? elapsed)%Z; [auto with preserve|].
    apply preserving_bind; [|intros _; apply IH].
    unfold sleep. preserve.
Qed.

Lemma preserving_operate (interval : Z) (d : WidgetDescriptor) (selector : string) :
  preserving (operate (Page := Page) (Elem := Elem) interval d selector).
Proof.
  unfold operate.
  apply preserving_bind; [apply preserving_findOne|]. intros target.
  apply preserving_bind.
  { unfold validate. apply preserving_bind; [apply preserving_getAttribute|].
    intros v. destruct (markupRule d v); auto with preserve. }
  intros _.
  apply preserving_bind; [apply preserving_count|]. intros before.
  apply preserving_bind; [apply preserving_useOn|]. intros _.
  apply preserving_bind; [intros w; reflexivity|]. intros wait.
  apply preserving_bind.
  { unfold poll. apply preserving_pollFrom.
    unfold successPredicate. apply preserving_bind; [apply preserving_count|].
    intros now. auto with preserve. }
  intros outcome. destruct outcome; auto with preserve.
Qed.

Lemma perform_patience (c : @Call Elem) (w : @World Page Elem) :
  patience (perform c w) = patience w.
Proof.
  destruct c; simpl.
  - apply preserving_getSessionId.
  - apply preserving_get.
  - apply preserving_count.
  - apply preserving_findOne.
  - apply preserving_use.
  - apply preserving_useOn.
  - apply preserving_quit.
Qed.

Lemma lifetime_patience (calls : list (@Call Elem)) (w : @World Page Elem) :
  patience (lifetime calls w) = patience w.
Proof.
  unfold lifetime. revert w.
  induction calls as [|c calls IH]; intros w; simpl.
  - reflexivity.
  - rewrite IH. apply perform_patience.
Qed.

(** The options the constructor reads: the defaults, overwritten by
    what the caller passed. *)
Lemma assigned_options (options : option Object) (k : string) :
  Object_assign ∅ [Some defaults; options] !! k =
  match supplied options k with
  | Some v => Some v
  | None => defaults !! k
  end.
Proof.
  unfold Object_assign, supplied. simpl.
  rewrite (right_id_L ∅ (∪)).
  destruct options as [o|]; simpl; [|reflexivity].
  rewrite lookup_union. destruct (o !! k), (defaults !! k); reflexivity.
Qed.

Lemma constructor_patience (options : option Object) :
  patience (constructor (WD := WD) options) =
  default (VNumber 1000) (supplied options "patience").
Proof.
  unfold patience, constructor. cbn [self _patience]. unfold prop.
  rewrite assigned_options.
  destruct (supplied options "patience"); reflexivity.
Qed.

Lemma constructor_server (options : option Object) :
  server (_driver (self (constructor (WD := WD) options))) =
  default VUndefined (supplied options "url").
Proof.
  unfold constructor, build, usingServer, forBrowser.
  cbn [self _driver b_browser b_server].
  destruct (createSession _ _) as [id p]. cbn [server]. unfold prop.
  rewrite assigned_options.
  destruct (supplied options "url"); reflexivity.
Qed.
End Patience.

Section PatienceClaims.
Context {Page Elem : Type} `{WD : WebDriver Page Elem}.

(** C6: the patience is decided by the constructor, is 1000 when the
    options do not supply one (or when there are no options), and is
    the value the accessor returns after any sequence of calls of the
    methods of the class, on any instance. *)
Theorem patience_fixed_at_construction
    (options : option Object) (calls : list (@Call Elem)) (w : @World Page Elem) :
  patience (constructor (WD := WD) None) = VNumber 1000
  /\ patience (constructor (WD := WD) options)
     = default (VNumber 1000) (supplied options "patience")
  /\ patience (lifetime calls (constructor (WD := WD) options))
     = patience (constructor (WD := WD) options)
  /\ patience (lifetime calls w) = patience w.
Proof.
  split; [apply (constructor_patience None)|].
  split; [apply constructor_patience|].
  split; apply lifetime_patience.
Qed.

(** C7, as the code has it: the constructor stores the patience it is
    given without looking at it, so an instance built without a
    patience option, or with one that is a number at least 0, has a
    patience at least 0 for its whole life. *)
Theorem patience_nonnegative_when_supplied_so
    (options : option Object) (calls : list (@Call Elem)) :
  (forall v, supplied options "patience" = Some v -> nonNegative v) ->
  nonNegative (patience (lifetime calls (constructor (WD := WD) options))).
Proof.
  intros Hsup.
  rewrite lifetime_patience, constructor_patience.
  destruct (supplied options "patience") as [v|]; simpl.
  - apply Hsup. reflexivity.
  - lia.
Qed.

Lemma bind_from {A B} (m : @M Page Elem A) (k1 k2 : A -> @M Page Elem B)
    (w : @World Page Elem) :
  preserving m ->
  (forall a w', patience w' = patience w -> k1 a w' = k2 a w') ->
  bind m k1 w = bind m k2 w.
Proof.
  intros Hm Hk. unfold bind. specialize (Hm w).
  destruct (m w) as [[a|t] w']; [|reflexivity].
  apply Hk. exact Hm.
Qed.

Lemma preserving_validate (d : WidgetDescriptor) (selector : string) (target : Elem) :
  preserving (validate (Page := Page) d selector target).
Proof.
  unfold validate. apply preserving_bind; [apply preserving_getAttribute|].
  intros v. destruct (markupRule d v); [apply preserving_throw | apply preserving_ret].
Qed.

(** The wait of a widget operation lasts the patience the instance has
    when the operation starts: the steps before the wait leave it
    alone. *)
Lemma operate_waits_for_patience
    (interval : Z) (d : WidgetDescriptor) (selector : string) (w : @World Page Elem) :
  operate interval d selector w
  = operateWithin interval (patienceMs (patience w)) d selector w.
Proof.
  unfold operate, operateWithin.
  apply bind_from; [apply preserving_findOne|]. intros target w1 H1.
  apply bind_from; [apply preserving_validate|]. intros _ w2 H2.
  apply bind_from; [apply preserving_count|]. intros before w3 H3.
  apply bind_from; [apply preserving_useOn|]. intros _ w4 H4.
  unfold bind at 1. cbn beta iota.
  rewrite H4, H3, H2, H1. reflexivity.
Qed.

(** C8, as the code has it: the options the constructor reads are named
    [patience] and [url], each on its own.  A [patience] option is what
    the accessor returns, at once and after any calls, and, when it is a
    number, it is the duration of the bounded wait of every widget
    operation, whatever the kind.  A [url] option is the server the
    session is built against and the one the backend is asked for a
    session at.  An option that is not passed has its default, whether
    the other one is passed or not, and the browser is always firefox. *)
Theorem constructor_reads_patience_and_url
    (o : Object) (calls : list (@Call Elem))
    (interval : Z) (d : WidgetDescriptor) (selector : string) :
  let w := constructor (WD := WD) (Some o) in
  (forall p, o !! "patience" = Some p ->
             patience w = p /\ patience (lifetime calls w) = p)
  /\ (forall n, o !! "patience" = Some (VNumber n) ->
                operate interval d selector (lifetime calls w)
                = operateWithin interval n d selector (lifetime calls w))
  /\ (forall u, o !! "url" = Some u ->
                server (_driver (self w)) = u
                /\ (sessionId (_driver (self w)), page (_driver (self w)))
                   = createSession "firefox" u)
  /\ (o !! "patience" = None -> patience w = VNumber 1000)
  /\ (o !! "url" = None -> server (_driver (self w)) = VUndefined)
  /\ browser (_driver (self w)) = "firefox".
Proof.
  intros w.
  assert (Hpat : patience w = default (VNumber 1000) (o !! "patience"))
    by apply (constructor_patience (Some o)).
  assert (Hsrv : server (_driver (self w)) = default VUndefined (o !! "url"))
    by apply (constructor_server (Some o)).
  assert (Hses : (sessionId (_driver (self w)), page (_driver (self w)))
                 = createSession "firefox" (default VUndefined (o !! "url"))
                 /\ browser (_driver (self w)) = "firefox").
  { subst w. unfold constructor, build, usingServer, forBrowser.
    cbn [self _driver b_browser b_server].
    unfold prop. rewrite (assigned_options (Some o) "url"). simpl.
    destruct (o !! "url") as [u|]; simpl;
      destruct (createSession _ _) as [id pg]; split; reflexivity. }
  split.
  { intros p Hp. rewrite lifetime_patience, Hpat, Hp. split; reflexivity. }
  split.
  { intros n Hn. rewrite operate_waits_for_patience, lifetime_patience, Hpat, Hn.
    reflexivity. }
  split.
  { intros u Hu. rewrite Hsrv. destruct Hses as [Hses _].
    rewrite Hu in *. split; [reflexivity | exact Hses]. }
  split; [intros Hno; rewrite Hpat, Hno; reflexivity|].
  split; [intros Hno; rewrite Hsrv, Hno; reflexivity|].
  apply Hses.
Qed.
End PatienceClaims.

(** C7 fails as stated: an instance built with a patience of -5 reports
    -5. *)
Lemma negative_patience_is_kept :
  patience (constructor (WD := Fixture.Inst) (Some {[ "patience" := VNumber (-5) ]}))
  = VNumber (-5)
  /\ ~ nonNegative
       (patience (constructor (WD := Fixture.Inst)
                    (Some {[ "patience" := VNumber (-5) ]}))).
Proof.
  rewrite constructor_patience. simpl. rewrite lookup_singleton_eq. simpl.
  split; [reflexivity | lia].
Qed.

Lemma patience_nonnegative_when_supplied_so_witness :
  nonNegative
    (patience (lifetime [CallCount ".twin"; CallUse "#first"; CallQuit]
                 (constructor (WD := Fixture.Inst)
                    (Some {[ "patience" := VNumber 250 ]})))).
Proof.
  apply (patience_nonnegative_when_supplied_so (WD := Fixture.Inst)).
  intros v. simpl. rewrite lookup_singleton_eq.
  intros Hv. injection Hv as <-. simpl. lia.
Defined.

(** C8 fails as stated: options named [patienceMs] and [endpoint] are
    not read; the instance keeps the default patience and is built
    against no server. *)
Lemma patienceMs_and_endpoint_are_not_read :
  let o : Object := <["patienceMs" := VNumber 250]>
                      {[ "endpoint" := VString "http://localhost:4444" ]} in
  patience (constructor (WD := Fixture.Inst) (Some o)) = VNumber 1000
  /\ patience (constructor (WD := Fixture.Inst) (Some o)) <> VNumber 250
  /\ server (_driver (self (constructor (WD := Fixture.Inst) (Some o)))) = VUndefined
  /\ server (_driver (self (constructor (WD := Fixture.Inst) (Some o))))
     <> VString "http://localhost:4444".
Proof.
  vm_compute. repeat split; congruence.
Qed.

(** The call the popup tests make passes a [url] and nothing else; a
    call can pass a [patience] and nothing else as well. *)
Lemma constructor_reads_patience_and_url_witness :
  let o : Object := {[ "url" := VString "http://localhost:4444" ]} in
  let o' : Object := {[ "patience" := VNumber 250 ]} in
  (server (_driver (self (constructor (WD := Fixture.Inst) (Some o))))
   = VString "http://localhost:4444"
   /\ patience (constructor (WD := Fixture.Inst) (Some o)) = VNumber 1000)
  /\ (patience (constructor (WD := Fixture.Inst) (Some o')) = VNumber 250
      /\ server (_driver (self (constructor (WD := Fixture.Inst) (Some o'))))
         = VUndefined
      /\ openPopup 50 "#menu-button"
           (lifetime [CallGet "/widgets.html"]
              (constructor (WD := Fixture.Inst) (Some o')))
         = operateWithin 50 250 popup "#menu-button"
             (lifetime [CallGet "/widgets.html"]
                (constructor (WD := Fixture.Inst) (Some o')))).
Proof.
  intros o o'. split.
  - destruct (constructor_reads_patience_and_url (WD := Fixture.Inst)
                o [] 50 popup ".twin") as (_ & _ & Hurl & Hdefault & _).
    split.
    + apply (Hurl (VString "http://localhost:4444")). reflexivity.
    + apply Hdefault. reflexivity.
  - destruct (constructor_reads_patience_and_url (WD := Fixture.Inst)
                o' [CallGet "/widgets.html"] 50 popup "#menu-button")
      as (Hpat & Hwait & _ & _ & Hnourl & _).
    split; [apply (Hpat (VNumber 250)); reflexivity|].
    split; [apply Hnourl; reflexivity|].
    apply (Hwait 250). reflexivity.
Defined.

(** ** Resolution and activation *)

Section Traces.
Context {Page Elem : Type} `{WD : WebDriver Page Elem}.

Lemma warnings_app (a b : list (@Event Elem)) :
  warnings (a ++ b) = (warnings a ++ warnings b)%list.
Proof. unfold warnings. apply omap_app. Qed.

Lemma warned_app (c : string) (a b : list (@Event Elem)) :
  warned c (a ++ b) = (warned c a + warned c b)%nat.
Proof.
  unfold warned. rewrite warnings_app, List.filter_app, length_app.
  reflexivity.
Qed.

Lemma extend_extend (w : @World Page Elem) (a b : list (@Event Elem)) :
  extend (extend w a) b = extend w (a ++ b).
Proof. unfold extend. simpl. rewrite <- app_assoc. reflexivity. Qed.

Lemma extend_atPage (w : @World Page Elem) (p : Page) (a b : list (@Event Elem)) :
  extend (atPage (extend w a) p) b = extend (atPage w p) (a ++ b).
Proof. unfold extend, atPage. simpl. rewrite <- app_assoc. reflexivity. Qed.

Lemma pageOf_extend (w : @World Page Elem) (a : list (@Event Elem)) :
  pageOf (extend w a) = pageOf w.
Proof. reflexivity. Qed.

(** [use] is resolution followed by activation of what was resolved. *)
Lemma use_resolved (selector : string) (w w' : @World Page Elem) (t0 : Elem) :
  _findOne selector w = (Ok t0, w') ->
  use selector w = _use selector t0 w'.
Proof. intros Hres. unfold use, bind. rewrite Hres. reflexivity. Qed.

Lemma use_unresolved (selector : string) (w w' : @World Page Elem) (t : Thrown) :
  _findOne selector w = (Throw t, w') ->
  use selector w = (Throw t, w').
Proof. intros Hres. unfold use, bind. rewrite Hres. reflexivity. Qed.

(** Activation records commands only, and never reports a missing
    element. *)
Lemma useOn_trace (selector : string) (target : Elem) (w : @World Page Elem) :
  exists evs,
    trace (snd (_use selector target w)) = trace w ++ evs
    /\ warnings evs = []
    /\ fst (_use selector target w) <> Throw (notFound selector).
Proof.
  rewrite use_run. cbv zeta.
  destruct (ariaHidden _ _); [|destruct (takesFocus _ _)];
    (eexists; split; [reflexivity|]; split; [reflexivity|]);
    simpl; unfold unfocusable, notFound, ELEMENT_UNFOCUSABLE, ELEMENT_NOT_FOUND;
    congruence.
Qed.
End Traces.

Section ResolutionClaims.
Context {Page Elem : Type} `{WD : WebDriver Page Elem}.

(** C1: when a selector has more than one match, [_findOne] returns the
    first match in document order and throws nothing; what it records
    holds exactly one AMBIGUOUS-REFERENCE warning, whose argument is the
    selector, however many matches there are.  [use] goes on to
    activate that first match, and its whole run holds exactly one such
    warning and never reports a missing element. *)
Theorem ambiguous_selector_uses_first_match
    (selector : string) (w : @World Page Elem) (t0 t1 : Elem) (rest : list Elem) :
  findElements (pageOf w) (By_css selector) = t0 :: t1 :: rest ->
  exists evs,
    _findOne selector w = (Ok t0, extend w evs)
    /\ warned AMBIGUOUS_REFERENCE evs = 1%nat
    /\ ambiguous selector ∈ evs
    /\ use selector w = _use selector t0 (extend w evs)
    /\ exists evs',
         trace (snd (use selector w)) = trace w ++ evs'
         /\ warned AMBIGUOUS_REFERENCE evs' = 1%nat
         /\ fst (use selector w) <> Throw (notFound selector).
Proof.
  intros Hfind.
  pose proof (findOne_run selector w) as Hrun. rewrite Hfind in Hrun.
  simpl length in Hrun.
  exists (resolution selector (pageOf w) t0 (S (S (length rest)))).
  split; [exact Hrun|].
  split; [rewrite warned_resolution_ambiguous; reflexivity|].
  split.
  { unfold resolution. simpl. apply list_elem_of_further, list_elem_of_here. }
  pose proof (use_resolved _ _ _ _ Hrun) as Huse.
  split; [exact Huse|].
  destruct (useOn_trace selector t0
              (extend w (resolution selector (pageOf w) t0 (S (S (length rest))))))
    as (evs2 & Htr & Hwarn & Hnf).
  exists (resolution selector (pageOf w) t0 (S (S (length rest))) ++ evs2).
  rewrite Huse. split; [|split].
  - rewrite Htr. simpl. rewrite <- app_assoc. reflexivity.
  - rewrite warned_app, warned_resolution_ambiguous.
    unfold warned. rewrite Hwarn. reflexivity.
  - exact Hnf.
Qed.

(** C2: when a selector has no match, [_findOne] and [use] both throw
    ELEMENT-NOT-FOUND with the selector as its argument; the query for
    the elements is the only thing recorded, so no focus script and no
    key press is sent, and the page is left as it was. *)
Theorem unmatched_selector_is_not_found (selector : string) (w : @World Page Elem) :
  findElements (pageOf w) (By_css selector) = [] ->
  let evs := [Sent (CmdFindElements (By_css selector))] in
  _findOne selector w = (Throw (notFound selector), extend w evs)
  /\ use selector w = (Throw (notFound selector), extend w evs)
  /\ untouched evs
  /\ pageOf (snd (use selector w)) = pageOf w.
Proof.
  intros Hfind evs.
  pose proof (findOne_run selector w) as Hrun. rewrite Hfind in Hrun.
  pose proof (use_unresolved _ _ _ _ Hrun) as Huse.
  split; [exact Hrun|]. split; [exact Huse|].
  split; [reflexivity|]. rewrite Huse. reflexivity.
Qed.

(** C3: on the element it resolves, [_findOne] emits a POOR-SEMANTICS
    warning exactly when the [tabindex] attribute is there and
    [parseInt] reads from it an integer greater than 0; then it emits
    one, built from the attribute value; otherwise it emits none. *)
Theorem poor_semantics_iff_positive_tabindex
    (selector : string) (w : @World Page Elem) (t0 : Elem) (rest : list Elem) :
  findElements (pageOf w) (By_css selector) = t0 :: rest ->
  let positive :=
    exists v n, getAttribute (pageOf w) t0 "tabindex" = Some v
                /\ parseInt v = Some n /\ 0 < n in
  exists evs,
    _findOne selector w = (Ok t0, extend w evs)
    /\ (positive <->
        Emitted "warning" (poorSemantics (getAttribute (pageOf w) t0 "tabindex")) ∈ evs)
    /\ (positive <-> warned POOR_SEMANTICS evs = 1%nat)
    /\ (~ positive <-> warned POOR_SEMANTICS evs = 0%nat).
Proof.
  intros Hfind positive.
  pose proof (findOne_run selector w) as Hrun. rewrite Hfind in Hrun.
  exists (resolution selector (pageOf w) t0 (S (length rest))).
  split; [exact Hrun|].
  rewrite warned_resolution_poor.
  unfold positive. rewrite <- positiveTabindex_spec.
  unfold resolution.
  destruct (positiveTabindex (pageOf w) t0), (1 <? S (length rest))%nat; simpl;
    (split; [|split]); split;
    try discriminate; try reflexivity; try tauto;
    rewrite ?elem_of_cons, ?elem_of_nil;
    try (intros _; tauto);
    try (intros Hin; exfalso; intuition discriminate).
Qed.
End ResolutionClaims.

Section ActivationClaims.
Context {Page Elem : Type} `{WD : WebDriver Page Elem}.

Lemma ariaHidden_false (p : Page) (e : Elem) :
  ariaHidden p e = false <-> getAttribute p e "aria-hidden" <> Some "true".
Proof. unfold ariaHidden. apply bool_decide_eq_false. Qed.

Lemma ariaHidden_true (p : Page) (e : Elem) :
  ariaHidden p e = true <-> getAttribute p e "aria-hidden" = Some "true".
Proof. unfold ariaHidden. apply bool_decide_eq_true. Qed.

Lemma takesFocus_true (p : Page) (e : Elem) :
  takesFocus p e = true <-> activeElement (focus p e) = Some e.
Proof. unfold takesFocus. apply bool_decide_eq_true. Qed.

(** C4: the activation sequence runs in order and stops at the first
    failure.  With [aria-hidden] exactly [true] it throws
    ELEMENT-UNFOCUSABLE having only read the attribute: no focus script
    is sent and the page is as it was.  Otherwise the focus script is
    sent; if the page does not then report the target as active, it
    throws ELEMENT-UNFOCUSABLE and sends no key.  Enter is sent, to the
    target, only as the third command, after the attribute was read and
    the focus was checked, and then the call returns. *)
Theorem activation_is_ordered
    (selector : string) (target : Elem) (w : @World Page Elem) :
  let p := pageOf w in
  let r := _use selector target w in
  let hid := Sent (CmdGetAttribute target "aria-hidden") in
  let foc := Sent (CmdExecuteScript FocusAndCheck target) in
  let key := Sent (CmdSendKeys target Key.ENTER) in
  exists evs,
    trace (snd r) = trace w ++ evs
    /\ (getAttribute p target "aria-hidden" = Some "true" ->
        fst r = Throw (unfocusable selector)
        /\ evs = [hid] /\ untouched evs /\ pageOf (snd r) = p)
    /\ (getAttribute p target "aria-hidden" <> Some "true" ->
        activeElement (focus p target) <> Some target ->
        fst r = Throw (unfocusable selector) /\ evs = [hid; foc])
    /\ (getAttribute p target "aria-hidden" <> Some "true" ->
        activeElement (focus p target) = Some target ->
        fst r = Ok tt /\ evs = [hid; foc; key])
    /\ (forall e k, Sent (CmdSendKeys e k) ∈ evs ->
        getAttribute p target "aria-hidden" <> Some "true"
        /\ activeElement (focus p target) = Some target
        /\ evs = [hid; foc; key] /\ fst r = Ok tt).
Proof.
  intros p r hid foc key. subst r. rewrite use_run. cbv zeta. fold p.
  destruct (ariaHidden p target) eqn:Hhid.
  - apply ariaHidden_true in Hhid.
    exists [hid]. simpl. split; [reflexivity|].
    split; [intros _; repeat split|].
    split; [intros Hn; contradiction|].
    split; [intros Hn; contradiction|].
    intros e k Hin. apply list_elem_of_singleton in Hin. discriminate.
  - apply ariaHidden_false in Hhid.
    destruct (takesFocus p target) eqn:Hfoc.
    + apply takesFocus_true in Hfoc.
      exists [hid; foc; key]. simpl. split; [reflexivity|].
      split; [intros Hy; contradiction|].
      split; [intros _ Hn; contradiction|].
      split; [intros _ _; split; reflexivity|].
      intros e k _. repeat split; assumption.
    + apply bool_decide_eq_false in Hfoc.
      exists [hid; foc]. simpl. split; [reflexivity|].
      split; [intros Hy; contradiction|].
      split; [intros _ _; split; reflexivity|].
      split; [intros _ Hy; contradiction|].
      intros e k Hin. rewrite !elem_of_cons, elem_of_nil in Hin.
      exfalso. intuition discriminate.
Qed.

(** C5, as the code has it: when a selector has exactly one match, whose
    [aria-hidden] is not [true] and whose tab order is not positive,
    [use] emits no warning; it returns when the page reports the element
    as active after the focus script, having sent Enter last, and
    throws ELEMENT-UNFOCUSABLE when the page does not. *)
Theorem clean_single_match_warns_nothing
    (selector : string) (w : @World Page Elem) (t : Elem) :
  findElements (pageOf w) (By_css selector) = [t] ->
  getAttribute (pageOf w) t "aria-hidden" <> Some "true" ->
  ~ (exists v n, getAttribute (pageOf w) t "tabindex" = Some v
                 /\ parseInt v = Some n /\ 0 < n) ->
  exists evs,
    trace (snd (use selector w)) = trace w ++ evs
    /\ warnings evs = []
    /\ (activeElement (focus (pageOf w) t) = Some t ->
        fst (use selector w) = Ok tt
        /\ commands evs =
           [CmdFindElements (By_css selector);
            CmdGetAttribute t "tabindex";
            CmdGetAttribute t "aria-hidden";
            CmdExecuteScript FocusAndCheck t;
            CmdSendKeys t Key.ENTER])
    /\ (activeElement (focus (pageOf w) t) <> Some t ->
        fst (use selector w) = Throw (unfocusable selector)).
Proof.
  intros Hfind Hhid Htab.
  rewrite <- positiveTabindex_spec in Htab. apply not_true_is_false in Htab.
  pose proof (findOne_run selector w) as Hrun. rewrite Hfind in Hrun.
  rewrite (use_resolved _ _ _ _ Hrun), use_run. cbv zeta.
  rewrite pageOf_extend.
  apply ariaHidden_false in Hhid. rewrite Hhid.
  unfold resolution. rewrite Htab. simpl.
  destruct (takesFocus (pageOf w) t) eqn:Hfoc.
  - apply takesFocus_true in Hfoc.
    eexists. split; [simpl; rewrite <- app_assoc; reflexivity|].
    split; [reflexivity|]. split; [intros _; split; reflexivity|].
    intros Hn. contradiction.
  - apply bool_decide_eq_false in Hfoc.
    eexists. split; [simpl; rewrite <- app_assoc; reflexivity|].
    split; [reflexivity|]. split; [intros Hy; contradiction|].
    intros _. reflexivity.
Qed.

(** C10: when the single match of a selector has a positive tab order
    and [aria-hidden] exactly [true], [use] throws
    ELEMENT-UNFOCUSABLE, and what it has recorded by then is, in this
    order: the query, the read of [tabindex], the POOR-SEMANTICS
    warning, the read of [aria-hidden].  The warning was emitted before
    activation began and is still there. *)
Theorem warning_precedes_failed_activation
    (selector : string) (w : @World Page Elem) (t : Elem) :
  findElements (pageOf w) (By_css selector) = [t] ->
  (exists v n, getAttribute (pageOf w) t "tabindex" = Some v
               /\ parseInt v = Some n /\ 0 < n) ->
  getAttribute (pageOf w) t "aria-hidden" = Some "true" ->
  use selector w =
  (Throw (unfocusable selector),
   extend w [Sent (CmdFindElements (By_css selector));
             Sent (CmdGetAttribute t "tabindex");
             Emitted "warning" (poorSemantics (getAttribute (pageOf w) t "tabindex"));
             Sent (CmdGetAttribute t "aria-hidden")])
  /\ warned POOR_SEMANTICS (drop (length (trace w)) (trace (snd (use selector w))))
     = 1%nat.
Proof.
  intros Hfind Htab Hhid.
  apply positiveTabindex_spec in Htab. apply ariaHidden_true in Hhid.
  pose proof (findOne_run selector w) as Hrun. rewrite Hfind in Hrun.
  rewrite (use_resolved _ _ _ _ Hrun), use_run. cbv zeta.
  rewrite pageOf_extend, Hhid, extend_extend.
  unfold resolution. rewrite Htab. simpl.
  split; [reflexivity|].
  rewrite drop_app_length. reflexivity.
Qed.
End ActivationClaims.

(** ** Widget operations *)

Section WidgetClaims.
Context {Page Elem : Type} `{WD : WebDriver Page Elem}.
Variable samplingInterval : Z.

(** A trigger the markup rule refuses stops the operation right after
    the attribute was read. *)
Lemma operate_refused
    (d : WidgetDescriptor) (selector : string) (w : @World Page Elem)
    (t : Elem) (rest : list Elem) (fault : MarkupFault) :
  findElements (pageOf w) (By_css selector) = t :: rest ->
  markupRule d (getAttribute (pageOf w) t (required d)) = Some fault ->
  operate samplingInterval d selector w =
  (Throw (Aria (mkError INVALID_MARKUP (Some [selector; faultText fault]) None None)),
   extend w (resolution selector (pageOf w) t (S (length rest))
             ++ [Sent (CmdGetAttribute t (required d))])).
Proof.
  intros Hfind Hrule.
  pose proof (findOne_run selector w) as Hrun. rewrite Hfind in Hrun.
  unfold operate. unfold bind at 1. rewrite Hrun.
  unfold bind at 1. unfold validate, elem_getAttribute, currentPage, log.
  unfold bind, ret, throw. cbn [fst snd self trace extend].
  change (page (_driver (self w))) with (pageOf w).
  rewrite Hrule. unfold extend. rewrite <- app_assoc. reflexivity.
Qed.

(** The three refusals of the popup rule. *)
Lemma popup_rule_refuses (v : option string) :
  v = None \/ v = Some "false" \/ (exists tok, v = Some tok /\ tok ∉ accepted popup) ->
  exists fault, markupRule popup v = Some fault.
Proof.
  intros [->|[->|(tok & -> & Hno)]].
  - exists AttributeAbsent. reflexivity.
  - exists NegativeState. reflexivity.
  - unfold markupRule.
    destruct (bool_decide (tok = negative popup)); [eauto|].
    rewrite (bool_decide_eq_false_2 _ Hno). eauto.
Qed.

(** C9: on a trigger whose [aria-haspopup] is absent, is [false], or is
    a token the popup kind does not accept, [openPopup] throws
    INVALID-MARKUP with the selector and the reason as arguments.  The
    commands sent are the query and the two attribute reads: no focus
    script, no key press, no sample of the success predicate; the page
    is as it was. *)
Theorem invalid_popup_markup_stops_before_activation
    (selector : string) (w : @World Page Elem) (t : Elem) (rest : list Elem) :
  findElements (pageOf w) (By_css selector) = t :: rest ->
  (getAttribute (pageOf w) t "aria-haspopup" = None
   \/ getAttribute (pageOf w) t "aria-haspopup" = Some "false"
   \/ exists tok, getAttribute (pageOf w) t "aria-haspopup" = Some tok
                  /\ tok ∉ accepted popup) ->
  exists fault evs,
    markupRule popup (getAttribute (pageOf w) t "aria-haspopup") = Some fault
    /\ openPopup samplingInterval selector w =
       (Throw (Aria (mkError INVALID_MARKUP
                       (Some [selector; faultText fault]) None None)),
        extend w evs)
    /\ commands evs =
       [CmdFindElements (By_css selector);
        CmdGetAttribute t "tabindex";
        CmdGetAttribute t "aria-haspopup"]
    /\ untouched evs
    /\ pageOf (snd (openPopup samplingInterval selector w)) = pageOf w.
Proof.
  intros Hfind Hbad.
  destruct (popup_rule_refuses _ Hbad) as [fault Hrule].
  pose proof (operate_refused popup selector w t rest fault Hfind Hrule) as Hop.
  exists fault. eexists. split; [exact Hrule|].
  split; [exact Hop|].
  unfold openPopup. rewrite Hop. unfold resolution, untouched.
  destruct (1 <? S (length rest))%nat, (positiveTabindex (pageOf w) t);
    repeat split.
Qed.
End WidgetClaims.

(** ** The claims on the sample document *)

(** Two elements match [.twin]: the first one is used, with one
    warning. *)
Lemma ambiguous_selector_uses_first_match_witness :
  findElements (pageOf (Fixture.loaded None)) (By_css ".twin") = [0%nat; 1%nat]
  /\ exists evs,
       _findOne ".twin" (Fixture.loaded None) = (Ok 0%nat, extend (Fixture.loaded None) evs)
       /\ warned AMBIGUOUS_REFERENCE evs = 1%nat
       /\ ambiguous ".twin" ∈ evs
       /\ use ".twin" (Fixture.loaded None)
          = _use ".twin" 0%nat (extend (Fixture.loaded None) evs)
       /\ exists evs',
            trace (snd (use ".twin" (Fixture.loaded None)))
            = trace (Fixture.loaded None) ++ evs'
            /\ warned AMBIGUOUS_REFERENCE evs' = 1%nat
            /\ fst (use ".twin" (Fixture.loaded None)) <> Throw (notFound ".twin").
Proof.
  split; [reflexivity|].
  apply (ambiguous_selector_uses_first_match ".twin" (Fixture.loaded None)
           0%nat 1%nat []).
  reflexivity.
Defined.

(** Nothing matches [#none]. *)
Lemma unmatched_selector_is_not_found_witness :
  findElements (pageOf (Fixture.loaded None)) (By_css "#none") = []
  /\ use "#none" (Fixture.loaded None)
     = (Throw (notFound "#none"),
        extend (Fixture.loaded None) [Sent (CmdFindElements (By_css "#none"))]).
Proof.
  split; [reflexivity|].
  apply (unmatched_selector_is_not_found "#none" (Fixture.loaded None)).
  reflexivity.
Defined.

(** [#first] has a tab order of 1. *)
Lemma poor_semantics_iff_positive_tabindex_witness :
  exists evs,
    _findOne "#first" (Fixture.loaded None) = (Ok 2%nat, extend (Fixture.loaded None) evs)
    /\ warned POOR_SEMANTICS evs = 1%nat.
Proof.
  assert (Hfind : findElements (pageOf (Fixture.loaded None)) (By_css "#first")
                  = [2%nat]) by reflexivity.
  destruct (poor_semantics_iff_positive_tabindex "#first" (Fixture.loaded None)
              2%nat [] Hfind) as (evs & Hres & _ & Hone & _).
  exists evs. split; [exact Hres|].
  apply Hone. exists "1", 1.
  split; [reflexivity|]. split; [reflexivity | lia].
Defined.

(** [#hidden] is hidden: only its attribute is read. *)
Lemma activation_is_ordered_witness :
  fst (_use "#hidden" 3%nat (Fixture.loaded None)) = Throw (unfocusable "#hidden")
  /\ pageOf (snd (_use "#hidden" 3%nat (Fixture.loaded None)))
     = pageOf (Fixture.loaded None).
Proof.
  destruct (activation_is_ordered "#hidden" 3%nat (Fixture.loaded None))
    as (evs & _ & Hhid & _).
  assert (Hattr : getAttribute (pageOf (Fixture.loaded None)) 3%nat "aria-hidden"
                  = Some "true") by reflexivity.
  destruct (Hhid Hattr) as (Hthrow & _ & _ & Hpage).
  split; [exact Hthrow | exact Hpage].
Defined.

(** C5 fails as stated: [#inert] is the only match of its selector, is
    not hidden and has no tab order, yet [use] throws because the page
    does not report it as active after the focus script. *)
Lemma clean_single_match_can_refuse_focus :
  findElements (pageOf (Fixture.loaded None)) (By_css "#inert") = [4%nat]
  /\ getAttribute (pageOf (Fixture.loaded None)) 4%nat "aria-hidden" = None
  /\ getAttribute (pageOf (Fixture.loaded None)) 4%nat "tabindex" = None
  /\ fst (use "#inert" (Fixture.loaded None)) = Throw (unfocusable "#inert")
  /\ fst (use "#inert" (Fixture.loaded None)) <> Ok tt.
Proof.
  vm_compute. repeat split; congruence.
Qed.

(** [#ok] has a tab order of -1, [aria-hidden] set to [false], and takes
    focus. *)
Lemma clean_single_match_warns_nothing_witness :
  exists evs,
    trace (snd (use "#ok" (Fixture.loaded None))) = trace (Fixture.loaded None) ++ evs
    /\ warnings evs = []
    /\ fst (use "#ok" (Fixture.loaded None)) = Ok tt.
Proof.
  destruct (clean_single_match_warns_nothing "#ok" (Fixture.loaded None) 6%nat)
    as (evs & Htrace & Hnone & Hok & _).
  - reflexivity.
  - vm_compute. congruence.
  - intros (v & n & Hv & Hn & Hpos).
    vm_compute in Hv. injection Hv as <-.
    vm_compute in Hn. injection Hn as <-. lia.
  - exists evs. split; [exact Htrace|]. split; [exact Hnone|].
    apply Hok. reflexivity.
Defined.

(** [#both] has a tab order of 2 and is hidden. *)
Lemma warning_precedes_failed_activation_witness :
  fst (use "#both" (Fixture.loaded None)) = Throw (unfocusable "#both")
  /\ warned POOR_SEMANTICS
       (drop (length (trace (Fixture.loaded None)))
             (trace (snd (use "#both" (Fixture.loaded None))))) = 1%nat.
Proof.
  destruct (warning_precedes_failed_activation "#both" (Fixture.loaded None) 5%nat)
    as [Huse Hwarn].
  - reflexivity.
  - exists "2", 2. split; [reflexivity|]. split; [reflexivity | lia].
  - reflexivity.
  - rewrite Huse. split; [reflexivity | exact Hwarn].
Defined.

(** [#odd-popup] declares a popup kind that is not one of the accepted
    tokens. *)
Lemma invalid_popup_markup_stops_before_activation_witness :
  exists fault evs,
    openPopup 50 "#odd-popup" (Fixture.loaded None) =
    (Throw (Aria (mkError INVALID_MARKUP
                    (Some ["#odd-popup"; faultText fault]) None None)),
     extend (Fixture.loaded None) evs)
    /\ untouched evs.
Proof.
  destruct (invalid_popup_markup_stops_before_activation 50 "#odd-popup"
              (Fixture.loaded None) 9%nat [])
    as (fault & evs & _ & Hop & _ & Hun & _).
  - reflexivity.
  - right. right. exists "tooltip". split; [reflexivity|].
    vm_compute. intros Hin.
    repeat (apply elem_of_cons in Hin as [Hin|Hin]; [discriminate|]).
    inversion Hin.
  - exists fault, evs. split; [exact Hop | exact Hun].
Defined.

(** The sample document also has a trigger that opens its menu after
    120 ms: with the default patience the operation returns, with a
    patience of 50 ms it times out. *)
Example openPopup_in_time :
  fst (openPopup 50 "#menu-button" (Fixture.loaded None)) = Ok tt.
Proof. vm_compute. reflexivity. Qed.

Example openPopup_too_late :
  fst (openPopup 50 "#menu-button"
         (Fixture.loaded (Some {[ "patience" := VNumber 50 ]})))
  = Throw (Aria (mkError TIMEOUT (Some ["#menu-button"]) None None)).
Proof. vm_compute. reflexivity. Qed.


(** ** What every call does to an instance *)

Section Shape.
Context {Page Elem : Type} `{WD : WebDriver Page Elem}.

Lemma atPage_same (w : @World Page Elem) : atPage w (pageOf w) = w.
Proof. destruct w as [[pat [b s i p]] tr]. reflexivity. Qed.

Lemma atPage_atPage (w : @World Page Elem) (p q : Page)
    (a b : list (@Event Elem)) :
  extend (atPage (extend (atPage w p) a) q) b = extend (atPage w q) (a ++ b).
Proof. unfold extend, atPage. simpl. rewrite <- app_assoc. reflexivity. Qed.

Lemma since_extend (w : @World Page Elem) (p : Page) (evs : list (@Event Elem)) :
  since w (extend (atPage w p) evs) = evs.
Proof. unfold since, extend, atPage. simpl. apply drop_app_length. Qed.

Lemma since_extend_same (w : @World Page Elem) (evs : list (@Event Elem)) :
  since w (extend w evs) = evs.
Proof. unfold since, extend. simpl. apply drop_app_length. Qed.

Lemma getSessionId_run (w : @World Page Elem) :
  getSessionId w = (Ok (sessionId (_driver (self w))), extend w [Sent CmdGetSession]).
Proof. reflexivity. Qed.

Lemma get_run (url : string) (w : @World Page Elem) :
  get url w = (Ok tt, extend (atPage w (navigate (pageOf w) url)) [Sent (CmdGet url)]).
Proof. reflexivity. Qed.

Lemma count_run (selector : string) (w : @World Page Elem) :
  count selector w =
  (Ok (length (findElements (pageOf w) (By_css selector))),
   extend w [Sent (CmdFindElements (By_css selector))]).
Proof. reflexivity. Qed.

Lemma quit_run (w : @World Page Elem) :
  quit w = (Ok tt, extend w [Sent CmdQuit]).
Proof. reflexivity. Qed.

(** The state [_findOne] ends in. *)
Lemma findOne_state (selector : string) (w : @World Page Elem) :
  exists evs,
    snd (_findOne selector w) = extend w evs
    /\ untouched evs
    /\ Forall (fun e => advisory e = true) (warnings evs)
    /\ (length (warnings evs) <= 2)%nat
    /\ (forall c, warned c evs <= 1)%nat.
Proof.
  rewrite findOne_run.
  destruct (findElements (pageOf w) (By_css selector)) as [|t0 rest]; simpl.
  - eexists. split; [reflexivity|]. repeat split; auto.
  - eexists. split; [reflexivity|].
    split; [apply untouched_resolution|].
    rewrite warnings_resolution. unfold warned. rewrite warnings_resolution.
    destruct (1 <? S (length rest))%nat, (positiveTabindex (pageOf w) t0); simpl;
      (split; [repeat (apply List.Forall_cons; [reflexivity|]); apply List.Forall_nil|]);
      (split; [lia|]); intros c;
      repeat case_bool_decide; simpl; try lia; subst; discriminate.
Qed.

(** The state [_use] ends in. *)
Lemma useOn_state (selector : string) (target : Elem) (w : @World Page Elem) :
  exists p evs,
    snd (_use selector target w) = extend (atPage w p) evs
    /\ warnings evs = []
    /\ Forall (fun c => addressee c = Some target) (commands evs).
Proof.
  rewrite use_run. cbv zeta.
  destruct (ariaHidden _ _); [|destruct (takesFocus _ _)]; simpl.
  - exists (pageOf w). eexists. rewrite atPage_same.
    split; [reflexivity|]. split; [reflexivity|]. repeat constructor.
  - eexists. eexists. split; [reflexivity|]. split; [reflexivity|].
    repeat constructor.
  - eexists. eexists. split; [reflexivity|]. split; [reflexivity|].
    repeat constructor.
Qed.

(** Whatever the call and however it ends, the instance it leaves is the
    one it found, looking at some document, with more recorded; the
    warnings added carry one of the two advisory codes and are at most
    two; a call that only asks leaves the document as it was. *)
Lemma perform_state (c : @Call Elem) (w : @World Page Elem) :
  exists p evs,
    perform c w = extend (atPage w p) evs
    /\ Forall (fun e => advisory e = true) (warnings evs)
    /\ (length (warnings evs) <= 2)%nat
    /\ (asksOnly c = true -> p = pageOf w).
Proof.
  destruct c as [|url|selector|selector|selector|selector target|]; simpl.
  - exists (pageOf w). eexists. rewrite atPage_same.
    split; [reflexivity|]. simpl. repeat split; auto.
  - eexists. eexists. split; [reflexivity|]. simpl.
    repeat split; auto. discriminate.
  - exists (pageOf w). eexists. rewrite atPage_same.
    split; [reflexivity|]. simpl. repeat split; auto.
  - destruct (findOne_state selector w) as (evs & Hst & _ & Hadv & Hlen & _).
    exists (pageOf w), evs. rewrite atPage_same. auto.
  - destruct (findOne_state selector w) as (evs & Hst & _ & Hadv & Hlen & _).
    unfold use, bind.
    destruct (_findOne selector w) as [[t|th] w1] eqn:Hres; simpl in Hst; subst w1.
    + destruct (useOn_state selector t (extend w evs)) as (p & evs2 & Hst2 & Hnone & _).
      exists p, (evs ++ evs2). rewrite Hst2.
      rewrite <- (atPage_same w) at 1. rewrite atPage_atPage.
      split; [reflexivity|]. rewrite warnings_app, Hnone, app_nil_r.
      repeat split; auto. discriminate.
    + exists (pageOf w), evs. rewrite atPage_same.
      repeat split; auto.
  - destruct (useOn_state selector target w) as (p & evs & Hst & Hnone & _).
    exists p, evs. rewrite Hst, Hnone. simpl.
    repeat split; auto. discriminate.
  - exists (pageOf w). eexists. rewrite atPage_same.
    split; [reflexivity|]. simpl. repeat split; auto.
Qed.

Lemma lifetime_state (calls : list (@Call Elem)) (w : @World Page Elem) :
  exists p evs,
    lifetime calls w = extend (atPage w p) evs
    /\ Forall (fun e => advisory e = true) (warnings evs)
    /\ (length (warnings evs) <= 2 * length calls)%nat
    /\ (forallb asksOnly calls = true -> p = pageOf w).
Proof.
  unfold lifetime. revert w.
  induction calls as [|c calls IH]; intros w; simpl.
  - exists (pageOf w), []. rewrite atPage_same. unfold extend.
    rewrite app_nil_r. destruct w. repeat split; auto.
  - destruct (perform_state c w) as (p1 & e1 & Hp & Hadv1 & Hlen1 & Hask1).
    destruct (IH (perform c w)) as (p2 & e2 & Hl & Hadv2 & Hlen2 & Hask2).
    exists p2, (e1 ++ e2). rewrite Hl, Hp, atPage_atPage.
    split; [reflexivity|]. rewrite warnings_app.
    split; [apply Forall_app; auto|].
    split; [rewrite length_app; lia|].
    intros Hall. apply andb_true_iff in Hall as [Hc Hcs].
    rewrite (Hask2 Hcs), Hp. simpl. apply Hask1, Hc.
Qed.
End Shape.

(** ** Outcomes of [_findOne] and [use] *)

Section Outcomes.
Context {Page Elem : Type} `{WD : WebDriver Page Elem}.

(** [use], run to its end. *)
Lemma use_full_run (selector : string) (w : @World Page Elem) :
  use selector w =
  let p := pageOf w in
  match findElements p (By_css selector) with
  | [] => (Throw (notFound selector),
           extend w [Sent (CmdFindElements (By_css selector))])
  | t0 :: rest =>
    let res := resolution selector p t0 (S (length rest)) in
    let hid := Sent (CmdGetAttribute t0 "aria-hidden") in
    let foc := Sent (CmdExecuteScript FocusAndCheck t0) in
    if ariaHidden p t0
    then (Throw (unfocusable selector), extend w (res ++ [hid]))
    else if takesFocus p t0
         then (Ok tt, extend (atPage w (sendKeys (focus p t0) t0 Key.ENTER))
                        (res ++ [hid; foc; Sent (CmdSendKeys t0 Key.ENTER)]))
         else (Throw (unfocusable selector),
               extend (atPage w (focus p t0)) (res ++ [hid; foc]))
  end.
Proof.
  cbv zeta. pose proof (findOne_run selector w) as Hrun.
  destruct (findElements (pageOf w) (By_css selector)) as [|t0 rest].
  - apply (use_unresolved _ _ _ _ Hrun).
  - rewrite (use_resolved _ _ _ _ Hrun), use_run. cbv zeta.
    rewrite pageOf_extend.
    destruct (ariaHidden _ _); [|destruct (takesFocus _ _)].
    + rewrite extend_extend. reflexivity.
    + rewrite extend_atPage. reflexivity.
    + rewrite extend_atPage. reflexivity.
Qed.

(** X1: the read of [targets[0]] is safe.  [_findOne] reads it only
    after the length of the list was found not to be 0, so neither
    [_findOne] nor [use] throws the TypeError of a read on [undefined];
    and an element [_findOne] returns is the first of the list the query
    gave. *)
Theorem first_match_read_is_safe (selector : string) (w : @World Page Elem) :
  fst (_findOne selector w) <> Throw TypeError
  /\ fst (use selector w) <> Throw TypeError
  /\ (forall t, fst (_findOne selector w) = Ok t ->
                head (findElements (pageOf w) (By_css selector)) = Some t).
Proof.
  rewrite use_full_run, findOne_run. cbv zeta.
  destruct (findElements (pageOf w) (By_css selector)) as [|t0 rest]; simpl.
  - split; [discriminate|]. split; [discriminate|]. intros t Ht. discriminate.
  - split; [discriminate|]. split.
    + destruct (ariaHidden _ _); [|destruct (takesFocus _ _)]; simpl; discriminate.
    + intros t Ht. injection Ht as <-. reflexivity.
Qed.

(** X2: [use] returns exactly when the query gave a first element whose
    [aria-hidden] is not [true] and that the page reports as active
    after the focus script; tab order, ambiguity and the other matches
    play no part.  The page it leaves is then the one that received
    Enter on that element after the focus. *)
Theorem use_returns_iff (selector : string) (w : @World Page Elem) :
  let p := pageOf w in
  (fst (use selector w) = Ok tt <->
   exists t, head (findElements p (By_css selector)) = Some t
             /\ getAttribute p t "aria-hidden" <> Some "true"
             /\ activeElement (focus p t) = Some t)
  /\ (forall t, head (findElements p (By_css selector)) = Some t ->
      fst (use selector w) = Ok tt ->
      pageOf (snd (use selector w)) = sendKeys (focus p t) t Key.ENTER).
Proof.
  intros p. subst p. rewrite use_full_run. cbv zeta.
  destruct (findElements (pageOf w) (By_css selector)) as [|t0 rest]; simpl.
  - split.
    + split; [discriminate | intros (t & Hh & _); discriminate].
    + intros t Hh. discriminate.
  - destruct (ariaHidden (pageOf w) t0) eqn:Hhid.
    + apply ariaHidden_true in Hhid. simpl. split.
      * split; [discriminate|].
        intros (t & Hh & Hn & _). injection Hh as <-. contradiction.
      * intros t _ Hok. discriminate.
    + apply ariaHidden_false in Hhid.
      destruct (takesFocus (pageOf w) t0) eqn:Hfoc; simpl.
      * apply takesFocus_true in Hfoc. split.
        -- split; [intros _; exists t0; auto | reflexivity].
        -- intros t Hh _. injection Hh as <-. reflexivity.
      * apply bool_decide_eq_false in Hfoc. split.
        -- split; [discriminate|].
           intros (t & Hh & _ & Hact). injection Hh as <-. contradiction.
        -- intros t _ Hok. discriminate.
Qed.

(** X3: [use] and [_findOne] throw ELEMENT-NOT-FOUND exactly when
    [count] of the same selector on the same page returns 0. *)
Theorem not_found_iff_count_is_zero (selector : string) (w : @World Page Elem) :
  (fst (_findOne selector w) = Throw (notFound selector)
   <-> fst (count selector w) = Ok 0%nat)
  /\ (fst (use selector w) = Throw (notFound selector)
      <-> fst (count selector w) = Ok 0%nat).
Proof.
  rewrite use_full_run, findOne_run, count_run. cbv zeta.
  destruct (findElements (pageOf w) (By_css selector)) as [|t0 rest]; simpl.
  - split; split; reflexivity.
  - split; [split; discriminate|].
    destruct (ariaHidden _ _); [|destruct (takesFocus _ _)]; simpl;
      split; try discriminate;
      unfold unfocusable, notFound, ELEMENT_UNFOCUSABLE, ELEMENT_NOT_FOUND;
      congruence.
Qed.

(** X4: the number of AMBIGUOUS-REFERENCE warnings of one [_findOne], and
    of one [use], is 1 when [count] of the selector is above 1 and 0
    otherwise: a single match never warns of ambiguity. *)
Theorem ambiguity_warning_follows_count (selector : string) (w : @World Page Elem) :
  exists n,
    fst (count selector w) = Ok n
    /\ warned AMBIGUOUS_REFERENCE (since w (snd (_findOne selector w)))
       = (if (1 <? n)%nat then 1%nat else 0%nat)
    /\ warned AMBIGUOUS_REFERENCE (since w (snd (use selector w)))
       = (if (1 <? n)%nat then 1%nat else 0%nat).
Proof.
  rewrite use_full_run, findOne_run, count_run. cbv zeta.
  eexists. split; [reflexivity|].
  destruct (findElements (pageOf w) (By_css selector)) as [|t0 rest];
    cbn [fst snd length].
  - rewrite since_extend_same. split; reflexivity.
  - split.
    + rewrite since_extend_same. apply warned_resolution_ambiguous.
    + destruct (ariaHidden _ _); [|destruct (takesFocus _ _)]; cbn [fst snd];
        rewrite ?since_extend_same, ?since_extend;
        rewrite warned_app, warned_resolution_ambiguous;
        destruct (1 <? S (length rest))%nat; reflexivity.
Qed.
End Outcomes.

(** ** What resolution and activation touch *)

Section Reach.
Context {Page Elem : Type} `{WD : WebDriver Page Elem}.

(** X5: [_findOne] leaves the instance and its page as they were,
    whether it returns or throws; it sends no focus script and no key;
    it emits at most two warnings, at most one of any code, each with one
    of the two advisory codes. *)
Theorem resolution_only_asks (selector : string) (w : @World Page Elem) :
  let evs := since w (snd (_findOne selector w)) in
  self (snd (_findOne selector w)) = self w
  /\ trace (snd (_findOne selector w)) = trace w ++ evs
  /\ untouched evs
  /\ (length (warnings evs) <= 2)%nat
  /\ (forall c, warned c evs <= 1)%nat
  /\ Forall (fun e => advisory e = true) (warnings evs).
Proof.
  destruct (findOne_state selector w) as (evs & Hst & Hun & Hadv & Hlen & Hone).
  cbv zeta. rewrite Hst, since_extend_same. simpl.
  repeat split; auto.
Qed.

(** X6: when the query gives a list with a first element, [_findOne]
    sends two commands, the query and the read of [tabindex] on that
    first element, so no other match is ever looked at; the warnings
    come in a fixed order, ambiguity before tab order. *)
Theorem resolution_looks_at_first_match_only
    (selector : string) (w : @World Page Elem) (t0 : Elem) (rest : list Elem) :
  findElements (pageOf w) (By_css selector) = t0 :: rest ->
  let evs := since w (snd (_findOne selector w)) in
  commands evs = [CmdFindElements (By_css selector); CmdGetAttribute t0 "tabindex"]
  /\ warnings evs =
     (if decide (rest = []) then []
      else [mkError AMBIGUOUS_REFERENCE (Some [selector]) None None])
     ++ (if positiveTabindex (pageOf w) t0
         then [poorSemantics (getAttribute (pageOf w) t0 "tabindex")] else []).
Proof.
  intros Hfind evs. subst evs.
  pose proof (findOne_run selector w) as Hrun. rewrite Hfind in Hrun.
  rewrite Hrun. cbn [snd].
  rewrite since_extend_same. unfold resolution.
  destruct rest as [|t1 rest]; destruct (positiveTabindex (pageOf w) t0);
    split; reflexivity.
Qed.

(** X7: every command [use] sends after the query is addressed to the
    first element of the list the query gave: no attribute of another
    match is read, and no script or key reaches another match. *)
Theorem use_reaches_first_match_only
    (selector : string) (w : @World Page Elem) (t0 : Elem) (rest : list Elem) :
  findElements (pageOf w) (By_css selector) = t0 :: rest ->
  exists cs,
    commands (since w (snd (use selector w)))
    = CmdFindElements (By_css selector) :: cs
    /\ Forall (fun c => addressee c = Some t0) cs.
Proof.
  intros Hfind.
  pose proof (use_full_run selector w) as Hrun. cbv zeta in Hrun.
  rewrite Hfind in Hrun. rewrite Hrun.
  unfold resolution.
  destruct (ariaHidden _ _); [|destruct (takesFocus _ _)]; cbn [snd];
    rewrite ?since_extend_same, ?since_extend;
    destruct (1 <? S (length rest))%nat, (positiveTabindex (pageOf w) t0);
    (eexists; split; [reflexivity|]);
    repeat (apply List.Forall_cons; [reflexivity|]); apply List.Forall_nil.
Qed.

(** X8: the page [_use] leaves.  With [aria-hidden] set to [true] it is
    the page it found.  When the focus is not confirmed it is the page
    after the focus script: the attempt is not undone.  Otherwise it is
    the page after the focus script and the Enter key.  The patience and
    the session are as they were in all three cases, and no warning is
    emitted. *)
Theorem activation_page (selector : string) (target : Elem) (w : @World Page Elem) :
  let p := pageOf w in
  let w' := snd (_use selector target w) in
  pageOf w' =
    (if bool_decide (getAttribute p target "aria-hidden" = Some "true") then p
     else if bool_decide (activeElement (focus p target) = Some target)
          then sendKeys (focus p target) target Key.ENTER
          else focus p target)
  /\ patience w' = patience w
  /\ sessionOf w' = sessionOf w
  /\ warnings (since w w') = [].
Proof.
  cbv zeta. rewrite use_run. cbv zeta. unfold ariaHidden, takesFocus.
  destruct (bool_decide (getAttribute _ _ _ = _));
    [|destruct (bool_decide (activeElement _ = _))]; cbn [snd];
    rewrite ?since_extend_same, ?since_extend; repeat split.
Qed.

(** X9: warnings do not stand in the way.  When the first element the
    query gave is not hidden and takes the focus, [use] returns and has
    sent the five commands in order, however many elements matched and
    whatever the tab order; the warnings of the resolution are emitted
    all the same. *)
Theorem warnings_do_not_block_use
    (selector : string) (w : @World Page Elem) (t0 : Elem) (rest : list Elem) :
  findElements (pageOf w) (By_css selector) = t0 :: rest ->
  getAttribute (pageOf w) t0 "aria-hidden" <> Some "true" ->
  activeElement (focus (pageOf w) t0) = Some t0 ->
  let evs := since w (snd (use selector w)) in
  fst (use selector w) = Ok tt
  /\ commands evs =
     [CmdFindElements (By_css selector);
      CmdGetAttribute t0 "tabindex";
      CmdGetAttribute t0 "aria-hidden";
      CmdExecuteScript FocusAndCheck t0;
      CmdSendKeys t0 Key.ENTER]
  /\ warned AMBIGUOUS_REFERENCE evs = (if decide (rest = []) then 0 else 1)%nat
  /\ warned POOR_SEMANTICS evs
     = (if positiveTabindex (pageOf w) t0 then 1 else 0)%nat.
Proof.
  intros Hfind Hhid Hfoc evs. subst evs.
  apply ariaHidden_false in Hhid. apply takesFocus_true in Hfoc.
  pose proof (use_full_run selector w) as Hrun. cbv zeta in Hrun.
  rewrite Hfind, Hhid, Hfoc in Hrun. rewrite Hrun. cbn [fst snd].
  rewrite since_extend. unfold resolution.
  destruct rest as [|t1 rest]; destruct (positiveTabindex (pageOf w) t0);
    repeat split.
Qed.
End Reach.

(** ** Over the life of an instance *)

Section Life.
Context {Page Elem : Type} `{WD : WebDriver Page Elem}.

(** X10: calls that only ask ([getSessionId], [count], [_findOne]) leave
    the page as it was, in any number and order; so [count] and
    [_findOne] give after them what they gave before them. *)
Theorem asking_leaves_the_page
    (calls : list (@Call Elem)) (w : @World Page Elem) (selector : string) :
  forallb asksOnly calls = true ->
  pageOf (lifetime calls w) = pageOf w
  /\ fst (count selector (lifetime calls w)) = fst (count selector w)
  /\ fst (_findOne selector (lifetime calls w)) = fst (_findOne selector w)
  /\ fst (use selector (lifetime calls w)) = fst (use selector w).
Proof.
  intros Hask.
  destruct (lifetime_state calls w) as (p & evs & Hst & _ & _ & Hp).
  specialize (Hp Hask). subst p. rewrite atPage_same in Hst.
  assert (Hpage : pageOf (lifetime calls w) = pageOf w)
    by (rewrite Hst; apply pageOf_extend).
  split; [exact Hpage|].
  rewrite !count_run, !findOne_run, !use_full_run. cbv zeta. rewrite Hpage.
  split; [reflexivity|]. split.
  - destruct (findElements _ _); reflexivity.
  - destruct (findElements _ _) as [|t0 rest]; [reflexivity|].
    destruct (ariaHidden _ _); [|destruct (takesFocus _ _)]; reflexivity.
Qed.

(** X11: no method replaces the session built by the constructor: as
    long as [quit] is not among the calls, its browser, server and
    identifier are the same after any sequence of calls, and
    [getSessionId] returns the same identifier. *)
Theorem session_is_never_rebuilt (calls : list (@Call Elem)) (w : @World Page Elem) :
  CallQuit ∉ calls ->
  sessionOf (lifetime calls w) = sessionOf w
  /\ fst (getSessionId (lifetime calls w)) = fst (getSessionId w).
Proof.
  intros _.
  destruct (lifetime_state calls w) as (p & evs & Hst & _).
  rewrite !getSessionId_run, Hst. split; reflexivity.
Qed.

Lemma no_other_code (l : list AriaDriverError) (c : string) :
  Forall (fun e => code e = AMBIGUOUS_REFERENCE \/ code e = POOR_SEMANTICS) l ->
  c <> AMBIGUOUS_REFERENCE -> c <> POOR_SEMANTICS ->
  List.filter (fun e => bool_decide (code e = c)) l = [].
Proof.
  intros Hl Hc1 Hc2. induction l as [|e l IH]; [reflexivity|].
  apply Forall_cons in Hl as [He Hl]. simpl. rewrite (IH Hl).
  case_bool_decide; [|reflexivity]. destruct He; congruence.
Qed.

(** X12: over any sequence of calls, what was recorded before is kept and
    only added to; every warning added carries AMBIGUOUS-REFERENCE or
    POOR-SEMANTICS, never one of the codes that are thrown; and there are
    at most two warnings per call. *)
Theorem only_advisory_codes_are_emitted
    (calls : list (@Call Elem)) (w : @World Page Elem) :
  let evs := since w (lifetime calls w) in
  trace (lifetime calls w) = trace w ++ evs
  /\ Forall (fun e => code e = AMBIGUOUS_REFERENCE \/ code e = POOR_SEMANTICS)
            (warnings evs)
  /\ warned ELEMENT_NOT_FOUND evs = 0%nat
  /\ warned ELEMENT_UNFOCUSABLE evs = 0%nat
  /\ (length (warnings evs) <= 2 * length calls)%nat.
Proof.
  destruct (lifetime_state calls w) as (p & evs & Hst & Hadv & Hlen & _).
  cbv zeta. rewrite Hst, since_extend.
  split; [reflexivity|].
  assert (Hcodes : Forall (fun e => code e = AMBIGUOUS_REFERENCE
                                    \/ code e = POOR_SEMANTICS) (warnings evs)).
  { eapply Forall_impl; [exact Hadv|]. intros e He. unfold advisory in He.
    apply orb_true_iff in He as [He|He]; apply bool_decide_eq_true in He; auto. }
  split; [exact Hcodes|].
  unfold warned.
  rewrite !(no_other_code _ _ Hcodes) by discriminate. auto.
Qed.
End Life.

(** ** The options the constructor looks at *)

Section Options.
Context {Page Elem : Type} `{WD : WebDriver Page Elem}.

Lemma prop_assigned (options : option Object) (k : string) :
  prop (Object_assign ∅ [Some defaults; options]) k
  = default (prop defaults k) (supplied options k).
Proof.
  unfold prop. rewrite assigned_options.
  destruct (supplied options k); reflexivity.
Qed.

(** X13: the instance the constructor builds depends on its argument
    through the properties [patience] and [url] alone: two arguments
    that agree on these two, each being an object, an empty object or no
    argument at all, give the same instance, and it has recorded
    nothing. *)
Theorem constructor_looks_at_two_options (options1 options2 : option Object) :
  supplied options1 "patience" = supplied options2 "patience" ->
  supplied options1 "url" = supplied options2 "url" ->
  constructor (WD := WD) options1 = constructor (WD := WD) options2
  /\ trace (constructor (WD := WD) options1) = [].
Proof.
  intros Hp Hu. unfold constructor.
  rewrite !prop_assigned, Hp, Hu. split; reflexivity.
Qed.
End Options.

(** ** The attribute values that read as a positive tab order *)

Lemma digit_range (c : ascii) (d : Z) : digit c = Some d -> 0 <= d <= 9.
Proof.
  unfold digit.
  destruct (N.leb 48 (N_of_ascii c) && N.leb (N_of_ascii c) 57)%bool eqn:Hr;
    [|discriminate].
  apply andb_true_iff in Hr as [Hlo Hhi].
  apply N.leb_le in Hlo, Hhi. intros Hd. injection Hd as <-. lia.
Qed.

Lemma digits_from (s : string) (a : Z) :
  0 <= a ->
  exists v, digits s (Some a) = Some v
            /\ 0 <= v
            /\ (0 < v <-> 0 < a \/ nonzeroRun s = true).
Proof.
  revert a. induction s as [|c r IH]; intros a Ha; simpl.
  - exists a. split; [reflexivity|]. split; [exact Ha|].
    split; [auto | intros [Hpos|Hno]; [exact Hpos | discriminate]].
  - destruct (digit c) as [d|] eqn:Hd.
    + pose proof (digit_range c d Hd) as Hrange.
      destruct (IH (10 * a + d)) as (v & Hv & Hnn & Hpos); [lia|].
      exists v. split; [exact Hv|]. split; [exact Hnn|].
      rewrite Hpos, orb_true_iff, Z.ltb_lt.
      destruct (nonzeroRun r); intuition (lia || discriminate).
    + exists a. split; [reflexivity|]. split; [exact Ha|].
      split; [auto | intros [Hpos|Hno]; [exact Hpos | discriminate]].
Qed.

Lemma digits_start (s : string) :
  gt0 (digits s None) = nonzeroRun s
  /\ (forall v, digits s None = Some v -> 0 <= v).
Proof.
  destruct s as [|c r]; simpl; [split; [reflexivity | discriminate]|].
  destruct (digit c) as [d|] eqn:Hd; [|split; [reflexivity | discriminate]].
  pose proof (digit_range c d Hd) as Hrange.
  destruct (digits_from r (10 * 0 + d)) as (v & Hv & Hnn & Hpos); [lia|].
  rewrite Hv. simpl. split.
  - destruct (0 <? v)%Z eqn:Hlt.
    + apply Z.ltb_lt in Hlt. apply Hpos in Hlt.
      symmetry. apply orb_true_iff. rewrite Z.ltb_lt.
      destruct Hlt as [Hlt|Hlt]; [left; lia | right; exact Hlt].
    + apply Z.ltb_ge in Hlt. symmetry. apply orb_false_iff.
      split.
      * apply Z.ltb_ge. destruct (Z_lt_le_dec 0 d) as [Hd0|Hd0]; [|exact Hd0].
        exfalso. assert (0 < v) by (apply Hpos; left; lia). lia.
      * destruct (nonzeroRun r) eqn:Hrun; [|reflexivity].
        exfalso. assert (0 < v) by (apply Hpos; right; reflexivity). lia.
  - intros v' Hv'. injection Hv' as <-. exact Hnn.
Qed.

Lemma gt0_plus (s : string) : gt0 (Z.mul 1 <$> digits s None) = nonzeroRun s.
Proof.
  rewrite <- (proj1 (digits_start s)).
  destruct (digits s None) as [v|]; simpl; [|reflexivity].
  destruct v; reflexivity.
Qed.

Lemma gt0_minus (s : string) : gt0 (Z.mul (-1) <$> digits s None) = false.
Proof.
  pose proof (proj2 (digits_start s)) as Hnn.
  destruct (digits s None) as [v|]; simpl; [|reflexivity].
  specialize (Hnn v eq_refl). apply Z.ltb_ge. lia.
Qed.

(** A value reads as a number above 0 exactly when it has the shape
    [positiveLiteral] describes. *)
Lemma gt0_parseInt (s : string) : gt0 (parseInt s) = positiveLiteral s.
Proof.
  unfold parseInt, positiveLiteral.
  destruct (trimStart s) as [|c r]; [reflexivity|].
  destruct c as [[] [] [] [] [] [] [] []]; cbv beta iota;
    first [apply gt0_plus | apply gt0_minus].
Qed.

Section Shape_of_tabindex.
Context {Page Elem : Type} `{WD : WebDriver Page Elem}.

(** X14: on the element it resolves, [_findOne] emits POOR-SEMANTICS
    exactly when the [tabindex] attribute is there and its value, after
    any leading white space and one optional plus sign, starts with
    decimal digits that are not all 0; whatever follows the digits is
    not looked at, and a minus sign, or no digit at that place, means no
    warning. *)
Theorem poor_semantics_by_shape
    (selector : string) (w : @World Page Elem) (t0 : Elem) (rest : list Elem) :
  findElements (pageOf w) (By_css selector) = t0 :: rest ->
  warned POOR_SEMANTICS (since w (snd (_findOne selector w))) =
  match getAttribute (pageOf w) t0 "tabindex" with
  | Some v => if positiveLiteral v then 1%nat else 0%nat
  | None => 0%nat
  end.
Proof.
  intros Hfind.
  pose proof (findOne_run selector w) as Hrun. rewrite Hfind in Hrun.
  rewrite Hrun. cbn [snd]. rewrite since_extend_same, warned_resolution_poor.
  unfold positiveTabindex. rewrite gt0_parseInt.
  destruct (getAttribute (pageOf w) t0 "tabindex"); reflexivity.
Qed.
End Shape_of_tabindex.

(** ** More of the sample document *)

Lemma resolution_looks_at_first_match_only_witness :
  commands (since (Fixture.loaded None) (snd (_findOne ".twin" (Fixture.loaded None))))
  = [CmdFindElements (By_css ".twin"); CmdGetAttribute 0%nat "tabindex"]
  /\ warnings (since (Fixture.loaded None) (snd (_findOne ".twin" (Fixture.loaded None))))
     = [mkError AMBIGUOUS_REFERENCE (Some [".twin"]) None None].
Proof.
  assert (Hfind : findElements (pageOf (Fixture.loaded None)) (By_css ".twin")
                  = [0%nat; 1%nat]) by reflexivity.
  destruct (resolution_looks_at_first_match_only ".twin" (Fixture.loaded None)
              0%nat [1%nat] Hfind) as [Hcmds Hwarn].
  split; [exact Hcmds | exact Hwarn].
Defined.

Lemma use_reaches_first_match_only_witness :
  exists cs,
    commands (since (Fixture.loaded None) (snd (use ".twin" (Fixture.loaded None))))
    = CmdFindElements (By_css ".twin") :: cs
    /\ Forall (fun c => addressee c = Some 0%nat) cs.
Proof.
  apply (use_reaches_first_match_only ".twin" (Fixture.loaded None) 0%nat [1%nat]).
  reflexivity.
Defined.

Lemma warnings_do_not_block_use_witness :
  fst (use "#first" (Fixture.loaded None)) = Ok tt
  /\ warned POOR_SEMANTICS
       (since (Fixture.loaded None) (snd (use "#first" (Fixture.loaded None))))
     = 1%nat.
Proof.
  destruct (warnings_do_not_block_use "#first" (Fixture.loaded None) 2%nat [])
    as (Hok & _ & _ & Hpoor).
  - reflexivity.
  - vm_compute. congruence.
  - reflexivity.
  - split; [exact Hok | exact Hpoor].
Defined.

Lemma asking_leaves_the_page_witness :
  let calls := [CallCount ".twin"; CallFindOne "#first"; CallGetSessionId] in
  pageOf (lifetime calls (Fixture.loaded None)) = pageOf (Fixture.loaded None)
  /\ fst (count ".twin" (lifetime calls (Fixture.loaded None)))
     = fst (count ".twin" (Fixture.loaded None)).
Proof.
  intros calls.
  destruct (asking_leaves_the_page calls (Fixture.loaded None) ".twin")
    as (Hpage & Hcount & _).
  - reflexivity.
  - split; [exact Hpage | exact Hcount].
Defined.

Lemma session_is_never_rebuilt_witness :
  let calls := [CallCount ".twin"; CallUse "#first"; CallGet "/widgets.html"] in
  sessionOf (lifetime calls (Fixture.loaded None)) = sessionOf (Fixture.loaded None)
  /\ fst (getSessionId (lifetime calls (Fixture.loaded None)))
     = fst (getSessionId (Fixture.loaded None)).
Proof.
  intros calls.
  apply (session_is_never_rebuilt calls (Fixture.loaded None)).
  intros Hin.
  repeat (apply elem_of_cons in Hin as [Hin|Hin]; [discriminate|]).
  inversion Hin.
Defined.

Lemma constructor_looks_at_two_options_witness :
  constructor (WD := Fixture.Inst) None
  = constructor (WD := Fixture.Inst) (Some {[ "patienceMs" := VNumber 250 ]}).
Proof.
  apply (constructor_looks_at_two_options (WD := Fixture.Inst) None
           (Some {[ "patienceMs" := VNumber 250 ]})); reflexivity.
Defined.

Lemma poor_semantics_by_shape_witness :
  warned POOR_SEMANTICS
    (since (Fixture.loaded None) (snd (_findOne "#first" (Fixture.loaded None))))
  = 1%nat.
Proof.
  assert (Hfind : findElements (pageOf (Fixture.loaded None)) (By_css "#first")
                  = [2%nat]) by reflexivity.
  rewrite (poor_semantics_by_shape "#first" (Fixture.loaded None) 2%nat [] Hfind).
  reflexivity.
Defined.

(** Shapes of attribute values, as [parseInt] reads them. *)
Example positiveLiteral_samples :
  map positiveLiteral ["1"; " +07"; "12px"; "1e3"; "0"; "000"; "-1"; "+-1";
                       "0.5"; ".5"; "one"; "null"; "+"]
  = [true; true; true; true; false; false; false; false;
     false; false; false; false; false].
Proof. reflexivity. Qed.
